(** * coverage_comment/github.py: a shallow embedding and its properties

    The module talks to the GitHub REST API through [github_client], writes
    log lines, appends to files and escapes workflow-command strings.  The
    embedding keeps the code's shape: remote calls, log lines and file
    appends are effects of a small state-and-exception monad, Python
    exceptions are values of [exn], [try]/[except] is [try_except], and the
    [for]/[else] scan of [post_comment] is a recursive function over the
    list of comments. *)

From Stdlib Require Import ZArith Ascii List Lia.
From stdpp Require Import base option list strings gmap pretty.
Import ListNotations.

Local Open Scope Z_scope.

(* stdpp blocks the unfolding of string concatenation; the proofs below
   compute with it on literal prefixes. *)
#[local] Arguments String.append !_ _ / : simpl nomatch.

(** ** Strings

    A Python [str] is modelled as a [string]; [s.replace(old, new)] with a
    one-character [old] substitutes [new] for every occurrence of that
    character, left to right. *)

Fixpoint replace (old : ascii) (new : string) (s : string) : string :=
  match s with
  | EmptyString => EmptyString
  | String c s' =>
      if Ascii.eqb c old then new +:+ replace old new s'
      else String c (replace old new s')
  end.

(** [sub in s] on strings: [sub] occurs in [s] as a contiguous substring. *)
Fixpoint contains (sub s : string) : bool :=
  String.prefix sub s ||
  match s with
  | EmptyString => false
  | String _ s' => contains sub s'
  end.

Definition CR : ascii := ascii_of_nat 13.
Definition LF : ascii := ascii_of_nat 10.

Definition escape_property (s : string) : string :=
  replace "," "%2C"
    (replace ":" "%3A"
      (replace LF "%0A"
        (replace CR "%0D"
          (replace "%" "%25" s)))).

Definition escape_data (s : string) : string :=
  replace LF "%0A" (replace CR "%0D" (replace "%" "%25" s)).

(** ** One-pass view of the escaping functions

    A chain of single-character replacements is a character-wise encoding,
    as long as no replacement text re-introduces a character that a later
    step rewrites. *)

Fixpoint flat_map_string (f : ascii -> string) (s : string) : string :=
  match s with
  | EmptyString => EmptyString
  | String c s' => f c +:+ flat_map_string f s'
  end.

Definition subst1 (old : ascii) (new : string) (c : ascii) : string :=
  if Ascii.eqb c old then new else String c EmptyString.

Definition enc_data (c : ascii) : string :=
  replace LF "%0A" (replace CR "%0D" (subst1 "%" "%25" c)).

Definition enc_property (c : ascii) : string :=
  replace "," "%2C" (replace ":" "%3A" (enc_data c)).

(** Reads one encoded character back. *)
Definition dec1 (s : string) : option ascii :=
  match s with
  | String c EmptyString => Some c
  | String _ (String x (String y EmptyString)) =>
      if (Ascii.eqb x "2" && Ascii.eqb y "5")%bool then Some "%"%char
      else if (Ascii.eqb x "0" && Ascii.eqb y "D")%bool then Some CR
      else if (Ascii.eqb x "0" && Ascii.eqb y "A")%bool then Some LF
      else if (Ascii.eqb x "3" && Ascii.eqb y "A")%bool then Some ":"%char
      else if (Ascii.eqb x "2" && Ascii.eqb y "C")%bool then Some ","%char
      else None
  | _ => None
  end.

(** ** Exceptions *)

(** Modelled from the spec: the errors of [github_client], which is not
    among the sources.  The gateway raises a distinguished forbidden
    condition on a 403 answer; every other failure is some other error.
    Both carry their detail. *)
Inductive client_error : Type :=
| Forbidden (detail : string)
| ApiError (detail : string).

(** What opening a file or writing to it can raise: the errors of the
    operating system ([OSError] stands for those without a name of their
    own here), and the error of encoding text that the file's encoding
    cannot express. *)
Inductive file_error : Type :=
| FileNotFoundError
| IsADirectoryError
| PermissionError
| UnicodeEncodeError
| OSError (detail : string).

(** The exceptions a function of the module can end with: those of the
    gateway, those of local files, the Python built-ins the module catches
    or lets through, and the module's own three classes.
    [CannotPostComment] keeps the exception it was raised [from]. *)
Inductive exn : Type :=
| ClientError (e : client_error)
| FileError (e : file_error)
| StopIteration
| KeyError (key : string)
| BadZipFile
| UnicodeDecodeError
| CannotDeterminePR (msg : string)
| CannotPostComment (cause : exn)
| NoArtifact (msg : string).

Definition GITHUB_ACTIONS_LOGIN : string := "github-actions[bot]".

(** ** Remote data, as the API answers expose it *)

Module Artifact.
Record t : Type := mk { name : string; id : Z }.
End Artifact.

Module Repository.
Record t : Type := mk { full_name : string }.
End Repository.

Module Run.
Record t : Type := mk { head_branch : string; head_repository : Repository.t }.
End Run.

Module PullRequest.
Record t : Type := mk { number : Z }.
End PullRequest.

Module User.
Record t : Type := mk { login : string }.
End User.

Module Comment.
Record t : Type := mk { id : Z; user : User.t; body : string }.
End Comment.

(** The bytes of a downloaded archive, and the archive once opened: the
    name table of [zipfile.ZipFile], from entry name to entry bytes. *)
Abbreviation bytes := (list Byte.byte).
Abbreviation archive := (gmap string (list Byte.byte)).

(** ** Requests

    One constructor per path the module navigates to, with the verb it
    uses there:
    - [GetRunArtifacts]: GET /repos/{repository}/actions/runs/{run_id}/artifacts
    - [GetArtifactZip]: GET /repos/{repository}/actions/artifacts/{id}/zip
    - [GetRun]: GET /repos/{repository}/actions/runs/{run_id}
    - [GetPulls]: GET /repos/{repository}/pulls with its query parameters
    - [GetUser]: GET /user
    - [GetIssueComments]: GET /repos/{repository}/issues/{pr_number}/comments
    - [PatchIssueComment]: PATCH /repos/{repository}/issues/comments/{id}
    - [PostIssueComment]: POST /repos/{repository}/issues/{pr_number}/comments *)

Inductive request : Type :=
| GetRunArtifacts (repository : string) (run_id : Z)
| GetArtifactZip (repository : string) (artifact_id : Z)
| GetRun (repository : string) (run_id : Z)
| GetPulls (repository head sort direction state : string)
| GetUser
| GetIssueComments (repository : string) (pr_number : Z)
| PatchIssueComment (repository : string) (comment_id : Z) (body : string)
| PostIssueComment (repository : string) (pr_number : Z) (body : string).

Definition response (r : request) : Type :=
  match r with
  | GetRunArtifacts _ _ => list Artifact.t
  | GetArtifactZip _ _ => bytes
  | GetRun _ _ => Run.t
  | GetPulls _ _ _ _ _ => list PullRequest.t
  | GetUser => User.t
  | GetIssueComments _ _ => list Comment.t
  | PatchIssueComment _ _ _ => unit
  | PostIssueComment _ _ _ => unit
  end.

(** What an invocation does that can be observed from outside, in order. *)
Inductive event : Type :=
| Call (r : request)
| LogInfo (msg : string)
| OpenAppend (path : string)
| WriteFile (path : string) (text : string).

Definition is_create (e : event) : bool :=
  match e with Call (PostIssueComment _ _ _) => true | _ => false end.

Definition is_update (e : event) : bool :=
  match e with Call (PatchIssueComment _ _ _) => true | _ => false end.

(** ** The effect monad

    A computation starts from the state of the remote service and of the
    local files, and ends with a value or a raised exception, the new
    state, and the events it produced. *)

Record state (World : Type) : Type := mkState {
  world : World;
  files : gmap string string
}.
Arguments mkState {World} _ _.
Arguments world {World} _.
Arguments files {World} _.

Record outcome (World A : Type) : Type := mkOutcome {
  result : exn + A;
  final : state World;
  events : list event
}.
Arguments mkOutcome {World A} _ _ _.
Arguments result {World A} _.
Arguments final {World A} _.
Arguments events {World A} _.

Definition M (World A : Type) : Type := state World -> outcome World A.

(** The operating system, as far as files go: [open_error path files] is the
    error that opening [path] for appending raises when the files are
    [files], if it raises one (a missing directory, a directory in place
    of the file, a refusal); [write_error path text files] is the error
    that writing [text] to the open file raises, if it raises one (text
    that cannot be encoded, a full disk).  Text is taken to have reached
    the file when the write returns: an error of the flush that closing
    the file performs is counted as an error of the write. *)
Record OS : Type := mkOS {
  open_error : string -> gmap string string -> option file_error;
  write_error : string -> string -> gmap string string -> option file_error
}.

(** Modelled from the spec: the gateway [github_client.GitHub], which is
    not among the sources.  Every request is answered, or refused with a
    client error, by a service that may change state while doing so. *)
Definition GitHub (World : Type) : Type :=
  forall r : request, World -> (client_error + response r) * World.

Section Monad.
Context {World : Type}.

Definition ret {A} (a : A) : M World A :=
  fun st => mkOutcome (inr a) st [].

Definition raise {A} (e : exn) : M World A :=
  fun st => mkOutcome (inl e) st [].

(** What happened before [o] is put in front of its events. *)
Definition after {A} (before : list event) (o : outcome World A)
    : outcome World A :=
  mkOutcome (result o) (final o) (before ++ events o).

Definition bind {A B} (m : M World A) (k : A -> M World B) : M World B :=
  fun st =>
    let o := m st in
    match result o with
    | inl e => mkOutcome (inl e) (final o) (events o)
    | inr a => after (events o) (k a (final o))
    end.

(** [try: m  except <those e with handler e = Some k>: k  else: els]. *)
Definition try_except_else {A B} (m : M World A)
    (handler : exn -> option (M World B)) (els : A -> M World B) : M World B :=
  fun st =>
    let o := m st in
    match result o with
    | inr a => after (events o) (els a (final o))
    | inl e =>
        match handler e with
        | Some k => after (events o) (k (final o))
        | None => mkOutcome (inl e) (final o) (events o)
        end
    end.

Definition try_except {A} (m : M World A)
    (handler : exn -> option (M World A)) : M World A :=
  try_except_else m handler ret.

Definition call (github : GitHub World) (r : request) : M World (response r) :=
  fun st =>
    let (answer, w) := github r (world st) in
    mkOutcome
      (match answer with inl e => inl (ClientError e) | inr x => inr x end)
      (mkState w (files st)) [Call r].

(** [log.info(msg)] *)
Definition log_info (msg : string) : M World unit :=
  fun st => mkOutcome (inr tt) st [LogInfo msg].

(** [next(iter(l))] *)
Definition next {A} (l : list A) : M World A :=
  match l with
  | x :: _ => ret x
  | [] => raise StopIteration
  end.

(** [path.open("a")]: raises what the operating system answers and then
    changes nothing; otherwise the file is there afterwards, created empty
    when it was missing. *)
Definition open_append (os : OS) (path : string) : M World unit :=
  fun st =>
    match open_error os path (files st) with
    | Some e => mkOutcome (inl (FileError e)) st [OpenAppend path]
    | None =>
        mkOutcome (inr tt)
          (mkState (world st)
             (<[path := default EmptyString (files st !! path)]> (files st)))
          [OpenAppend path]
    end.

(** [f.write(text)] on a file opened for appending: a refused write adds
    nothing and leaves what was written before. *)
Definition write (os : OS) (path text : string) : M World unit :=
  fun st =>
    match write_error os path text (files st) with
    | Some e => mkOutcome (inl (FileError e)) st [WriteFile path text]
    | None =>
        mkOutcome (inr tt)
          (mkState (world st)
             (<[path := default EmptyString (files st !! path) +:+ text]>
                (files st)))
          [WriteFile path text]
    end.

Fixpoint for_each {A} (l : list A) (body : A -> M World unit) : M World unit :=
  match l with
  | [] => ret tt
  | x :: l' => bind (body x) (fun _ => for_each l' body)
  end.
End Monad.

Notation "'let*' x := m 'in' k" := (bind m (fun x => k))
  (at level 10, x name, m at level 100, k at level 200).
Notation "m ;;; k" := (bind m (fun _ => k))
  (at level 100, k at level 200, right associativity).

(** Exception filters of the [except] clauses. *)
Definition on_StopIteration {T} (k : T) (e : exn) : option T :=
  match e with StopIteration => Some k | _ => None end.

Definition on_KeyError {T} (k : T) (e : exn) : option T :=
  match e with KeyError _ => Some k | _ => None end.

Definition on_Forbidden {T} (k : exn -> T) (e : exn) : option T :=
  match e with ClientError (Forbidden _) => Some (k e) | _ => None end.

Definition json_dumps (value : bool) : string :=
  if value then "true" else "false".

Definition newline : string := String LF EmptyString.

(** The line [set_output] writes for one keyword argument. *)
Definition output_line (kv : string * bool) : string :=
  fst kv +:+ "=" +:+ json_dumps (snd kv) +:+ newline.

(** ** The functions of the module *)

Section Github.
Context {World : Type}.
Variable github : GitHub World.

(** The archive reader and the text decoder of the Python library:
    [ZipFile] answers [None] where [zipfile.ZipFile] raises [BadZipFile],
    [decode_utf8] where [bytes.decode] raises [UnicodeDecodeError]. *)
Variable ZipFile : bytes -> option archive.
Variable decode_utf8 : bytes -> option string.

(** The operating system under the local files. *)
Variable os : OS.

(** [zipf.open(name, "r").read()] *)
Definition zip_read (zipf : archive) (name : string) : M World bytes :=
  match zipf !! name with
  | Some data => ret data
  | None => raise (KeyError name)
  end.

Definition decode (data : bytes) : M World string :=
  match decode_utf8 data with
  | Some s => ret s
  | None => raise UnicodeDecodeError
  end.

Definition open_zip (zip_bytes : bytes) : M World archive :=
  match ZipFile zip_bytes with
  | Some zipf => ret zipf
  | None => raise BadZipFile
  end.

Definition download_artifact (repository artifact_name : string)
    (run_id : Z) (filename : string) : M World string :=
  let* artifacts := call github (GetRunArtifacts repository run_id) in
  let* artifact :=
    try_except
      (next (List.filter
               (fun artifact => String.eqb (Artifact.name artifact) artifact_name)
               artifacts))
      (on_StopIteration
         (raise (NoArtifact ("Not artifact found with name " +:+ artifact_name
                             +:+ " in run " +:+ pretty run_id)))) in
  let* zip_bytes := call github (GetArtifactZip repository (Artifact.id artifact)) in
  let* zipf := open_zip zip_bytes in
  try_except
    (let* data := zip_read zipf filename in decode data)
    (on_KeyError
       (raise (NoArtifact ("File named " +:+ filename
                           +:+ " not found in artifact " +:+ artifact_name)))).

Definition get_pr_number_from_workflow_run (repository : string)
    (run_id : Z) : M World Z :=
  let* run := call github (GetRun repository run_id) in
  let branch := Run.head_branch run in
  let repo_name := Repository.full_name (Run.head_repository run) in
  let full_branch := repo_name +:+ ":" +:+ branch in
  let get_prs state :=
    call github (GetPulls repository full_branch "updated" "desc" state) in
  let* found :=
    try_except
      (let* prs := get_prs "open" in
       let* number := next (map PullRequest.number prs) in
       ret (Some number))
      (on_StopIteration (ret None)) in
  match found with
  | Some number => ret number
  | None =>
      log_info ("No open PR found for branch " +:+ full_branch
                +:+ ", defaulting to all PRs") ;;;
      try_except
        (let* prs := get_prs "all" in next (map PullRequest.number prs))
        (on_StopIteration
           (raise (CannotDeterminePR
                     ("No open PR found for branch " +:+ full_branch))))
  end.

Definition get_my_login : M World string :=
  try_except_else
    (call github GetUser)
    (on_Forbidden (fun _ => ret GITHUB_ACTIONS_LOGIN))
    (fun response => ret (User.login response)).

(** [comment.user.login == me and marker in comment.body] *)
Definition is_mine (me marker : string) (comment : Comment.t) : bool :=
  String.eqb (User.login (Comment.user comment)) me
  && contains marker (Comment.body comment).

(** The [for ... else] scan over the comments: the first comment of mine
    is patched and the loop is left; the [else] branch runs when the loop
    ends without a [break]. *)
Fixpoint post_comment_scan (me repository : string) (pr_number : Z)
    (contents marker : string) (comments : list Comment.t) : M World unit :=
  match comments with
  | comment :: rest =>
      if is_mine me marker comment then
        log_info "Update previous comment" ;;;
        try_except
          (call github (PatchIssueComment repository (Comment.id comment) contents))
          (on_Forbidden (fun exc => raise (CannotPostComment exc)))
      else post_comment_scan me repository pr_number contents marker rest
  | [] =>
      log_info "Adding new comment" ;;;
      try_except
        (call github (PostIssueComment repository pr_number contents))
        (on_Forbidden (fun exc => raise (CannotPostComment exc)))
  end.

Definition post_comment (me repository : string) (pr_number : Z)
    (contents marker : string) : M World unit :=
  let* comments := call github (GetIssueComments repository pr_number) in
  post_comment_scan me repository pr_number contents marker comments.

(** [github_output] is [None] or a path; a path is always truthy.  An
    exception inside the [with] block leaves it once the file is closed. *)
Definition set_output (github_output : option string)
    (kwargs : list (string * bool)) : M World unit :=
  match github_output with
  | Some path =>
      open_append os path ;;;
      for_each kwargs
        (fun '(key, value) =>
           write os path (key +:+ "=" +:+ json_dumps value +:+ newline))
  | None => ret tt
  end.
End Github.


(** ** A scripted gateway

    In the manner of the test suite's registered answers: every path has a
    fixed answer, and the state of the service counts the requests it has
    answered. *)

Module Fake.
Record t : Type := mk {
  artifacts : client_error + list Artifact.t;
  zip : Z -> client_error + bytes;
  run : client_error + Run.t;
  pulls : string -> client_error + list PullRequest.t;
  user : client_error + User.t;
  comments : client_error + list Comment.t;
  patch : Z -> client_error + unit;
  post : client_error + unit
}.

Definition github (f : t) : GitHub nat :=
  fun r served =>
    (match r return client_error + response r with
     | GetRunArtifacts _ _ => artifacts f
     | GetArtifactZip _ artifact_id => zip f artifact_id
     | GetRun _ _ => run f
     | GetPulls _ _ _ _ state => pulls f state
     | GetUser => user f
     | GetIssueComments _ _ => comments f
     | PatchIssueComment _ comment_id _ => patch f comment_id
     | PostIssueComment _ _ _ => post f
     end, S served).

(** A reader for one-entry archives: the bytes are the content of the
    entry [foo.txt]; no bytes at all is not an archive. *)
Definition ZipFile (b : bytes) : option archive :=
  match b with
  | [] => None
  | _ => Some {[ "foo.txt" := b ]}
  end.

(** Decodes the ASCII subset of UTF-8. *)
Definition decode_ascii (b : bytes) : option string :=
  if forallb (fun x => (Byte.to_N x <? 128)%N) b
  then Some (String.string_of_list_byte b)
  else None.

Definition start : state nat := mkState 0%nat ∅.

(** An operating system that refuses nothing. *)
Definition disk : OS := mkOS (fun _ _ => None) (fun _ _ _ => None).

Definition refused : client_error := Forbidden "403".
Definition missing : client_error := ApiError "404".

(** The comments of the pull request, and the answer to any write. *)
Definition with_comments (cs : list Comment.t) (write : client_error + unit)
    : t :=
  mk (inl missing) (fun _ => inl missing) (inl missing)
     (fun _ => inl missing) (inl missing)
     (inr cs) (fun _ => write) write.

(** A run of branch [other] of [someone/repo-name], and the pull
    requests listed for [state=open] and for any other state. *)
Definition the_run : Run.t := Run.mk "other" (Repository.mk "someone/repo-name").

Definition with_pulls (open_prs all_prs : list PullRequest.t) : t :=
  mk (inl missing) (fun _ => inl missing) (inr the_run)
     (fun state => if String.eqb state "open" then inr open_prs else inr all_prs)
     (inl missing) (inl missing) (fun _ => inl missing) (inl missing).

(** The artifacts of the run; each of them downloads as [content]. *)
Definition with_artifacts (arts : list Artifact.t) (content : bytes) : t :=
  mk (inr arts) (fun _ => inr content) (inl missing)
     (fun _ => inl missing) (inl missing)
     (inl missing) (fun _ => inl missing) (inl missing).

Definition bar_bytes : bytes := String.list_byte_of_string "bar".

Definition stranger_marked : Comment.t :=
  Comment.mk 455 (User.mk "bar") "Hey marker!".
Definition mine_marked : Comment.t :=
  Comment.mk 456 (User.mk "foo") "Hey! Hi! How are you? marker".
Definition mine_marked_again : Comment.t :=
  Comment.mk 457 (User.mk "foo") "marker, once more".
Definition thread : list Comment.t :=
  [stranger_marked; mine_marked; mine_marked_again].
End Fake.

(** ** The rest of the module *)

(** [c in s] for a one-character [c], and the number of its occurrences. *)
Fixpoint has_char (c : ascii) (s : string) : bool :=
  match s with
  | EmptyString => false
  | String x s' => Ascii.eqb x c || has_char c s'
  end.

Fixpoint count_char (c : ascii) (s : string) : nat :=
  match s with
  | EmptyString => 0%nat
  | String x s' => ((if Ascii.eqb x c then 1 else 0) + count_char c s')%nat
  end.

Definition MISSING_COVERAGE_MESSAGE : string := "This line has no coverage".

Module RepositoryInfo.
Record t : Type := mk { default_branch : string; visibility : string }.

Definition is_default_branch (self : t) (ref : string) : bool :=
  String.eqb ("refs/heads/" +:+ default_branch self) ref.

Definition is_public (self : t) : bool :=
  String.eqb (visibility self) "public".
End RepositoryInfo.

(** [kwargs] keeps the order of the keyword arguments. *)
Definition get_workflow_command (command command_value : string)
    (kwargs : list (string * string)) : string :=
  let values_listed :=
    map (fun '(key, value) => key +:+ "=" +:+ escape_property value) kwargs in
  let context :=
    match values_listed with
    | [] => EmptyString
    | _ => " " +:+ String.concat "," values_listed
    end in
  "::" +:+ command +:+ context +:+ "::" +:+ escape_data command_value.

(** [send_workflow_command] has one effect, the text [print] sends to
    [sys.stderr]; it is modelled by that text. *)
Definition send_workflow_command (command command_value : string)
    (kwargs : list (string * string)) : string :=
  get_workflow_command command command_value kwargs +:+ newline.

Definition create_missing_coverage_annotation (annotation_type file : string)
    (line : Z) : string :=
  send_workflow_command annotation_type MISSING_COVERAGE_MESSAGE
    [("file", file); ("line", pretty line)].

Definition append_to_file {World} (os : OS) (content filepath : string)
    : M World unit :=
  open_append os filepath ;;; write os filepath content.

Definition add_job_summary {World} (os : OS)
    (content github_step_summary : string) : M World unit :=
  append_to_file os content github_step_summary.

(** More scripted sessions, for the failures of the service. *)
Module Script.
(** Every path answers the error [e]. *)
Definition failing (e : client_error) : Fake.t :=
  Fake.mk (inl e) (fun _ => inl e) (inl e) (fun _ => inl e) (inl e)
    (inl e) (fun _ => inl e) (inl e).

(** The run of [Fake.the_run], with the answers of the two queries. *)
Definition with_pull_answers
    (open_answer all_answer : client_error + list PullRequest.t) : Fake.t :=
  Fake.mk (inl Fake.missing) (fun _ => inl Fake.missing) (inr Fake.the_run)
    (fun state => if String.eqb state "open" then open_answer else all_answer)
    (inl Fake.missing) (inl Fake.missing) (fun _ => inl Fake.missing)
    (inl Fake.missing).

(** The artifacts of the run, and the answer to any download. *)
Definition with_download (arts : list Artifact.t)
    (download : client_error + bytes) : Fake.t :=
  Fake.mk (inr arts) (fun _ => download) (inl Fake.missing)
    (fun _ => inl Fake.missing) (inl Fake.missing)
    (inl Fake.missing) (fun _ => inl Fake.missing) (inl Fake.missing).

Definition three_artifacts : list Artifact.t :=
  [Artifact.mk "bar" 456; Artifact.mk "foo" 789; Artifact.mk "foo" 790].

Definition mine_plain : Comment.t :=
  Comment.mk 9 (User.mk "foo") "no tag here".

Definition not_text : bytes := [Byte.xff; Byte.xfe].

(** There is no directory [missing-dir]: nothing opens below it. *)
Definition no_such_directory : OS :=
  mkOS (fun path _ =>
          if String.prefix "missing-dir/" path then Some FileNotFoundError
          else None)
       (fun _ _ _ => None).

(** Files whose encoding is ASCII: text with any other character cannot
    be written. *)
Definition ascii_files : OS :=
  mkOS (fun _ _ => None)
       (fun _ text _ =>
          if forallb (fun c => (N_of_ascii c <? 128)%N)
               (String.list_ascii_of_string text)
          then None else Some UnicodeEncodeError).

Definition accented_key : string :=
  "caf" +:+ String (ascii_of_nat 233) EmptyString.
End Script.

(** ** Facts about strings and the escaping functions *)

Lemma string_app_assoc (a b c : string) : (a +:+ b) +:+ c = a +:+ (b +:+ c).
Proof. induction a as [|x a IH]; simpl; [reflexivity | now rewrite IH]. Qed.

Lemma replace_app old new (a b : string) :
  replace old new (a +:+ b) = replace old new a +:+ replace old new b.
Proof.
  induction a as [|x a IH]; simpl; [reflexivity|].
  destruct (Ascii.eqb x old); simpl; rewrite IH; [|reflexivity].
  now rewrite string_app_assoc.
Qed.

Lemma replace_flat_map old new (s : string) :
  replace old new s = flat_map_string (subst1 old new) s.
Proof.
  induction s as [|c s IH]; simpl; [reflexivity|].
  unfold subst1. destruct (Ascii.eqb c old); simpl; now rewrite IH.
Qed.

Lemma replace_of_flat_map old new f (s : string) :
  replace old new (flat_map_string f s)
  = flat_map_string (fun c => replace old new (f c)) s.
Proof.
  induction s as [|c s IH]; simpl; [reflexivity|].
  now rewrite replace_app, IH.
Qed.

Lemma escape_data_one_pass (s : string) :
  escape_data s = flat_map_string enc_data s.
Proof.
  unfold escape_data.
  rewrite (replace_flat_map "%"), !replace_of_flat_map. reflexivity.
Qed.

Lemma escape_property_one_pass (s : string) :
  escape_property s = flat_map_string enc_property s.
Proof.
  unfold escape_property.
  rewrite (replace_flat_map "%"), !replace_of_flat_map. reflexivity.
Qed.

(** *** Prefix codes

    An encoding whose code words are either the character itself (never a
    percent sign) or a percent sign followed by exactly two characters can
    be read back unambiguously from the left. *)
Section PrefixCode.
Variable enc : ascii -> string.

Hypothesis enc_shape : forall c,
  (enc c = String c EmptyString /\ c <> "%"%char) \/
  (exists x y, enc c = String "%" (String x (String y EmptyString))).
Hypothesis enc_inj : forall c d, enc c = enc d -> c = d.

Lemma flat_map_string_inj (s t : string) :
  flat_map_string enc s = flat_map_string enc t -> s = t.
Proof.
  revert t. induction s as [|a s IH]; intros [|b t]; simpl; intros H.
  - reflexivity.
  - destruct (enc_shape b) as [[E _]|(x & y & E)]; rewrite E in H; discriminate.
  - destruct (enc_shape a) as [[E _]|(x & y & E)]; rewrite E in H; discriminate.
  - destruct (enc_shape a) as [[Ea Na]|(x & y & Ea)],
             (enc_shape b) as [[Eb Nb]|(x' & y' & Eb)].
    + rewrite Ea, Eb in H. simpl in H. injection H as -> H.
      f_equal. now apply IH.
    + rewrite Ea, Eb in H. simpl in H. injection H as H _. contradiction.
    + rewrite Ea, Eb in H. simpl in H. injection H as H _.
      symmetry in H. contradiction.
    + assert (a = b) as ->.
      { apply enc_inj. rewrite Ea, Eb in *. simpl in H.
        injection H as -> -> _. reflexivity. }
      rewrite Eb in H. simpl in H. injection H as H.
      f_equal. now apply IH.
Qed.
End PrefixCode.

Lemma enc_property_shape (c : ascii) :
  (enc_property c = String c EmptyString /\ c <> "%"%char) \/
  (exists x y, enc_property c = String "%" (String x (String y EmptyString))).
Proof.
  destruct c as [[] [] [] [] [] [] [] []];
    first [ left; split; [reflexivity | discriminate]
          | right; do 2 eexists; reflexivity ].
Qed.

Lemma enc_data_shape (c : ascii) :
  (enc_data c = String c EmptyString /\ c <> "%"%char) \/
  (exists x y, enc_data c = String "%" (String x (String y EmptyString))).
Proof.
  destruct c as [[] [] [] [] [] [] [] []];
    first [ left; split; [reflexivity | discriminate]
          | right; do 2 eexists; reflexivity ].
Qed.

Lemma dec1_enc_property (c : ascii) : dec1 (enc_property c) = Some c.
Proof. destruct c as [[] [] [] [] [] [] [] []]; reflexivity. Qed.

Lemma dec1_enc_data (c : ascii) : dec1 (enc_data c) = Some c.
Proof. destruct c as [[] [] [] [] [] [] [] []]; reflexivity. Qed.

Lemma escape_property_inj (s t : string) :
  escape_property s = escape_property t -> s = t.
Proof.
  rewrite !escape_property_one_pass.
  apply flat_map_string_inj; [exact enc_property_shape|].
  intros c d E. apply (f_equal dec1) in E.
  rewrite !dec1_enc_property in E. congruence.
Qed.

Lemma escape_data_inj (s t : string) :
  escape_data s = escape_data t -> s = t.
Proof.
  rewrite !escape_data_one_pass.
  apply flat_map_string_inj; [exact enc_data_shape|].
  intros c d E. apply (f_equal dec1) in E.
  rewrite !dec1_enc_data in E. congruence.
Qed.

(** ** Running the monad *)

(** Evaluates the steps of a computation that involve no remote call. *)
Ltac run_pure :=
  cbv beta iota zeta delta
    [after bind ret raise next log_info try_except try_except_else
     on_StopIteration on_KeyError on_Forbidden
     result final events app List.map].

Section MonadFacts.
Context {World : Type}.
Variable github : GitHub World.

Lemma call_ok (r : request) (st : state World) (x : response r) (w : World) :
  github r (world st) = (inr x, w) ->
  call github r st = mkOutcome (inr x) (mkState w (files st)) [Call r].
Proof. intros H. unfold call. now rewrite H. Qed.

Lemma call_err (r : request) (st : state World) (e : client_error) (w : World) :
  github r (world st) = (inl e, w) ->
  call github r st
  = mkOutcome (inl (ClientError e)) (mkState w (files st)) [Call r].
Proof. intros H. unfold call. now rewrite H. Qed.

Lemma call_ok_at (r : request) (w : World) fs (x : response r) (w' : World) :
  github r w = (inr x, w') ->
  call github r (mkState w fs) = mkOutcome (inr x) (mkState w' fs) [Call r].
Proof. intros H. now apply call_ok. Qed.

Lemma bind_ok {A B} (m : M World A) (k : A -> M World B) st a st1 ev :
  m st = mkOutcome (inr a) st1 ev ->
  bind m k st = after ev (k a st1).
Proof. intros H. unfold bind. now rewrite H. Qed.

Lemma bind_err {A B} (m : M World A) (k : A -> M World B) st e st1 ev :
  m st = mkOutcome (inl e) st1 ev ->
  bind m k st = mkOutcome (inl e) st1 ev.
Proof. intros H. unfold bind. now rewrite H. Qed.

Lemma try_except_else_ok {A B} (m : M World A) handler (els : A -> M World B)
    st a st1 ev :
  m st = mkOutcome (inr a) st1 ev ->
  try_except_else m handler els st = after ev (els a st1).
Proof. intros H. unfold try_except_else. now rewrite H. Qed.

Lemma try_except_else_caught {A B} (m : M World A) handler
    (els : A -> M World B) st e k st1 ev :
  m st = mkOutcome (inl e) st1 ev ->
  handler e = Some k ->
  try_except_else m handler els st = after ev (k st1).
Proof.
  intros H Hk. unfold try_except_else. rewrite H. simpl. now rewrite Hk.
Qed.

Lemma try_except_else_uncaught {A B} (m : M World A) handler
    (els : A -> M World B) st e st1 ev :
  m st = mkOutcome (inl e) st1 ev ->
  handler e = None ->
  try_except_else m handler els st = mkOutcome (inl e) st1 ev.
Proof.
  intros H Hk. unfold try_except_else. rewrite H. simpl. now rewrite Hk.
Qed.

(** The write that ends [post_comment]: a [PATCH] or a [POST] whose
    [Forbidden] is turned into [CannotPostComment]. *)
Lemma guarded_write (r : request) (st : state World) :
  let o := try_except (call github r)
             (on_Forbidden (fun exc => raise (CannotPostComment exc))) st in
  events o = [Call r] /\
  final o = mkState (snd (github r (world st))) (files st) /\
  result o = match fst (github r (world st)) with
             | inr x => inr x
             | inl (Forbidden d) =>
                 inl (CannotPostComment (ClientError (Forbidden d)))
             | inl e => inl (ClientError e)
             end.
Proof.
  unfold try_except, try_except_else, call. simpl.
  destruct (github r (world st)) as [[[d|d]|x] w]; simpl; auto.
Qed.

(** The scan stops at the first comment of mine. *)
Lemma post_comment_scan_find me repository pr_number contents marker comments st :
  post_comment_scan github me repository pr_number contents marker comments st
  = match List.find (is_mine me marker) comments with
    | Some comment =>
        (log_info "Update previous comment" ;;;
         try_except
           (call github
              (PatchIssueComment repository (Comment.id comment) contents))
           (on_Forbidden (fun exc => raise (CannotPostComment exc)))) st
    | None =>
        (log_info "Adding new comment" ;;;
         try_except
           (call github (PostIssueComment repository pr_number contents))
           (on_Forbidden (fun exc => raise (CannotPostComment exc)))) st
    end.
Proof.
  induction comments as [|c rest IH]; simpl; [reflexivity|].
  destruct (is_mine me marker c); [reflexivity | exact IH].
Qed.

Lemma find_first {A} (f : A -> bool) (l : list A) (a : A) :
  List.find f l = Some a <->
  exists pre post, l = pre ++ a :: post /\ f a = true /\
                   Forall (fun x => f x = false) pre.
Proof.
  split.
  - induction l as [|x l IH]; simpl; [discriminate|].
    destruct (f x) eqn:E.
    + intros [= ->]. exists [], l. auto.
    + intros H. destruct (IH H) as (pre & post & -> & Ha & Hpre).
      exists (x :: pre), post. auto.
  - intros (pre & post & -> & Ha & Hpre).
    induction Hpre as [|x pre Hx _ IH]; simpl.
    + now rewrite Ha.
    + now rewrite Hx.
Qed.

Lemma find_none_iff {A} (f : A -> bool) (l : list A) :
  List.find f l = None <-> Forall (fun x => f x = false) l.
Proof.
  induction l as [|x l IH]; simpl.
  - split; auto.
  - destruct (f x) eqn:E; split.
    + discriminate.
    + intros H. inversion H; congruence.
    + intros H. constructor; [assumption | now apply IH].
    + intros H. inversion H; subst. now apply IH.
Qed.

(** The whole of [post_comment] once the comments are listed. *)
Lemma post_comment_run me repository pr_number contents marker st comments w1 :
  github (GetIssueComments repository pr_number) (world st) = (inr comments, w1) ->
  let o := post_comment github me repository pr_number contents marker st in
  let log := match List.find (is_mine me marker) comments with
             | Some _ => "Update previous comment"
             | None => "Adding new comment"
             end in
  let r := match List.find (is_mine me marker) comments with
           | Some comment =>
               PatchIssueComment repository (Comment.id comment) contents
           | None => PostIssueComment repository pr_number contents
           end in
  events o = [Call (GetIssueComments repository pr_number); LogInfo log; Call r] /\
  final o = mkState (snd (github r w1)) (files st) /\
  result o = match fst (github r w1) with
             | inr x => inr tt
             | inl (Forbidden d) =>
                 inl (CannotPostComment (ClientError (Forbidden d)))
             | inl e => inl (ClientError e)
             end.
Proof.
  intros H. unfold post_comment.
  rewrite (bind_ok _ _ _ _ _ _ (call_ok _ _ _ _ H)).
  rewrite post_comment_scan_find.
  destruct (List.find (is_mine me marker) comments) as [c|]; simpl.
  - destruct (guarded_write
                (PatchIssueComment repository (Comment.id c) contents)
                (mkState w1 (files st))) as (E1 & E2 & E3).
    simpl in E1, E2, E3. rewrite E1, E2, E3.
    destruct (github _ w1) as [[[d|d]|[]] w]; simpl; auto.
  - destruct (guarded_write
                (PostIssueComment repository pr_number contents)
                (mkState w1 (files st))) as (E1 & E2 & E3).
    simpl in E1, E2, E3. rewrite E1, E2, E3.
    destruct (github _ w1) as [[[d|d]|[]] w]; simpl; auto.
Qed.
End MonadFacts.

(** ** post_comment *)

Lemma is_mine_spec me marker (c : Comment.t) :
  is_mine me marker c = true <->
  User.login (Comment.user c) = me /\ contains marker (Comment.body c) = true.
Proof.
  unfold is_mine. rewrite andb_true_iff, String.eqb_eq. reflexivity.
Qed.

(** C1. When the listed comments contain one written by [me] that carries
    the marker, [post_comment] issues no comment-creation call and does
    issue an update; and whatever the comments are, every update it issues
    goes to the id of a listed comment whose author is [me] and whose body
    contains the marker, so a marked comment of another author is never
    the one updated. *)
Theorem post_comment_respects_ownership {World} (github : GitHub World)
    (me repository : string) (pr_number : Z) (contents marker : string)
    (st : state World) :
  let o := post_comment github me repository pr_number contents marker st in
  (forall comments w1 c,
     github (GetIssueComments repository pr_number) (world st) = (inr comments, w1) ->
     In c comments -> is_mine me marker c = true ->
     (forall e, In e (events o) -> is_create e = false) /\
     existsb is_update (events o) = true)
  /\
  (forall repository' comment_id body,
     In (Call (PatchIssueComment repository' comment_id body)) (events o) ->
     exists comments w1 c,
       github (GetIssueComments repository pr_number) (world st) = (inr comments, w1) /\
       In c comments /\ Comment.id c = comment_id /\
       User.login (Comment.user c) = me /\
       contains marker (Comment.body c) = true).
Proof.
  intros o. split.
  - intros comments w1 c Hget Hin Hmine.
    destruct (post_comment_run github me repository pr_number contents marker
                st comments w1 Hget) as (Hev & _ & _).
    fold o in Hev. rewrite Hev.
    destruct (List.find (is_mine me marker) comments) as [c'|] eqn:Hfind.
    + split; [|reflexivity].
      intros e [<-|[<-|[<-|[]]]]; reflexivity.
    + apply find_none_iff in Hfind.
      rewrite Stdlib.Lists.List.Forall_forall in Hfind.
      specialize (Hfind c Hin). congruence.
  - intros repository' comment_id body Hin.
    destruct (github (GetIssueComments repository pr_number) (world st))
      as [[e|comments] w1] eqn:Hget.
    + exfalso. subst o. unfold post_comment in Hin.
      rewrite (bind_err _ _ _ _ _ _ (call_err github _ _ _ _ Hget)) in Hin.
      simpl in Hin. destruct Hin as [Hin|[]]. discriminate.
    + destruct (post_comment_run github me repository pr_number contents marker
                  st comments w1 Hget) as (Hev & _ & _).
      fold o in Hev. rewrite Hev in Hin.
      destruct (List.find (is_mine me marker) comments) as [c|] eqn:Hfind.
      * apply find_first in Hfind. destruct Hfind as (pre & post & -> & Hc & _).
        apply is_mine_spec in Hc. destruct Hc as [Hlogin Hmarker].
        destruct Hin as [Hin|[Hin|[Hin|[]]]]; try discriminate.
        injection Hin as _ <- _.
        exists (pre ++ c :: post), w1, c. repeat split; auto.
        apply in_or_app. right. now left.
      * destruct Hin as [Hin|[Hin|[Hin|[]]]]; discriminate.
Qed.

(** C4. Once the comments are listed, a [Forbidden] raised by the update
    call (when a comment of mine is found) or by the creation call (when
    none is) makes [post_comment] fail with [CannotPostComment] carrying
    that very [Forbidden] as its cause. *)
Theorem forbidden_write_is_surfaced {World} (github : GitHub World)
    (me repository : string) (pr_number : Z) (contents marker : string)
    (st : state World) (comments : list Comment.t) (w1 w2 : World)
    (detail : string) :
  github (GetIssueComments repository pr_number) (world st) = (inr comments, w1) ->
  let o := post_comment github me repository pr_number contents marker st in
  (forall c,
     List.find (is_mine me marker) comments = Some c ->
     github (PatchIssueComment repository (Comment.id c) contents) w1
       = (inl (Forbidden detail), w2) ->
     result o = inl (CannotPostComment (ClientError (Forbidden detail))))
  /\
  (List.find (is_mine me marker) comments = None ->
   github (PostIssueComment repository pr_number contents) w1
     = (inl (Forbidden detail), w2) ->
   result o = inl (CannotPostComment (ClientError (Forbidden detail)))).
Proof.
  intros Hget o.
  destruct (post_comment_run github me repository pr_number contents marker
              st comments w1 Hget) as (_ & _ & Hres).
  fold o in Hres. split.
  - intros c Hfind Hpatch. rewrite Hfind, Hpatch in Hres. exact Hres.
  - intros Hfind Hpost. rewrite Hfind, Hpost in Hres. exact Hres.
Qed.

(** C7. When two or more listed comments are mine, the first of them in
    the listed order is the one updated: the invocation consists of the
    listing, the update log line and a single update call against the
    first one's id.  No other request is made, so later duplicates are
    neither updated nor removed. *)
Theorem first_matching_comment_wins {World} (github : GitHub World)
    (me repository : string) (pr_number : Z) (contents marker : string)
    (st : state World) (pre mid post : list Comment.t) (c1 c2 : Comment.t)
    (w1 : World) :
  github (GetIssueComments repository pr_number) (world st)
    = (inr (pre ++ c1 :: mid ++ c2 :: post), w1) ->
  Forall (fun c => is_mine me marker c = false) pre ->
  is_mine me marker c1 = true ->
  is_mine me marker c2 = true ->
  let o := post_comment github me repository pr_number contents marker st in
  events o = [Call (GetIssueComments repository pr_number);
              LogInfo "Update previous comment";
              Call (PatchIssueComment repository (Comment.id c1) contents)] /\
  List.filter is_update (events o)
    = [Call (PatchIssueComment repository (Comment.id c1) contents)] /\
  final o
    = mkState
        (snd (github (PatchIssueComment repository (Comment.id c1) contents) w1))
        (files st).
Proof.
  intros Hget Hpre H1 H2 o.
  destruct (post_comment_run github me repository pr_number contents marker
              st _ w1 Hget) as (Hev & Hfin & _).
  fold o in Hev, Hfin.
  assert (List.find (is_mine me marker) (pre ++ c1 :: mid ++ c2 :: post) = Some c1)
    as Hfind.
  { apply find_first. exists pre, (mid ++ c2 :: post). auto. }
  rewrite Hfind in Hev, Hfin. rewrite Hev, Hfin. auto.
Qed.

(** C8, as the code has it.  When a comment of mine is found, the log line
    "Update previous comment" is emitted before the update call is issued,
    whatever that call answers; no creation call follows.  When the update
    succeeds the invocation ends normally; when it raises [Forbidden] the
    invocation fails with [CannotPostComment], the log line having been
    emitted all the same. *)
Theorem update_log_precedes_update {World} (github : GitHub World)
    (me repository : string) (pr_number : Z) (contents marker : string)
    (st : state World) (comments : list Comment.t) (c : Comment.t)
    (w1 : World) :
  github (GetIssueComments repository pr_number) (world st) = (inr comments, w1) ->
  List.find (is_mine me marker) comments = Some c ->
  let o := post_comment github me repository pr_number contents marker st in
  let update := PatchIssueComment repository (Comment.id c) contents in
  events o = [Call (GetIssueComments repository pr_number);
              LogInfo "Update previous comment";
              Call update] /\
  (forall w2, github update w1 = (inr tt, w2) ->
     result o = inr tt /\ final o = mkState w2 (files st)) /\
  (forall detail w2, github update w1 = (inl (Forbidden detail), w2) ->
     result o = inl (CannotPostComment (ClientError (Forbidden detail)))).
Proof.
  intros Hget Hfind o update.
  destruct (post_comment_run github me repository pr_number contents marker
              st comments w1 Hget) as (Hev & Hfin & Hres).
  fold o in Hev, Hfin, Hres. rewrite Hfind in Hev, Hfin, Hres.
  fold update in Hev, Hfin, Hres.
  split; [exact Hev|]. split.
  - intros w2 Hpatch. rewrite Hpatch in Hfin, Hres. auto.
  - intros detail w2 Hpatch. rewrite Hpatch in Hres. exact Hres.
Qed.

(** ** get_pr_number_from_workflow_run *)

(** C2. When the run is found and the query for open pull requests of its
    branch answers at least one, the number of the first one is returned
    after exactly two requests: the run lookup and the [state=open] query
    (head [repo_name:branch], sorted by [updated], descending).  No
    [state=all] query is made. *)
Theorem open_pr_is_returned_first {World} (github : GitHub World)
    (repository : string) (run_id : Z) (st : state World)
    (run : Run.t) (w1 w2 : World) (pr : PullRequest.t)
    (prs : list PullRequest.t) :
  let full_branch :=
    Repository.full_name (Run.head_repository run) +:+ ":" +:+ Run.head_branch run in
  let get_prs state := GetPulls repository full_branch "updated" "desc" state in
  github (GetRun repository run_id) (world st) = (inr run, w1) ->
  github (get_prs "open") w1 = (inr (pr :: prs), w2) ->
  let o := get_pr_number_from_workflow_run github repository run_id st in
  result o = inr (PullRequest.number pr) /\
  events o = [Call (GetRun repository run_id); Call (get_prs "open")] /\
  final o = mkState w2 (files st) /\
  (forall repository' head sort direction,
     ~ In (Call (GetPulls repository' head sort direction "all")) (events o)).
Proof.
  intros full_branch get_prs Hrun Hopen o.
  assert (o = mkOutcome (inr (PullRequest.number pr)) (mkState w2 (files st))
                [Call (GetRun repository run_id); Call (get_prs "open")]) as ->.
  { subst o. unfold get_pr_number_from_workflow_run.
    rewrite (bind_ok _ _ _ _ _ _ (call_ok github _ _ _ _ Hrun)).
    cbv beta zeta. fold full_branch.
    erewrite bind_ok.
    2:{ unfold try_except. erewrite try_except_else_ok.
        2:{ fold (get_prs "open").
            rewrite (bind_ok _ _ _ _ _ _ (call_ok_at github _ _ _ _ _ Hopen)).
          run_pure. reflexivity. }
        run_pure. reflexivity. }
    reflexivity. }
  simpl. repeat split.
  intros repository' head sort direction [H|[H|[]]]; discriminate.
Qed.

(** C3. When the run is found and the [state=open] query answers no pull
    request, the fallback notice is logged and the query is repeated with
    [state=all]; the number of its first answer is returned, and when it
    answers none either the invocation fails with [CannotDeterminePR]. *)
Theorem fallback_to_all_prs {World} (github : GitHub World)
    (repository : string) (run_id : Z) (st : state World)
    (run : Run.t) (w1 w2 w3 : World) (all_prs : list PullRequest.t) :
  let full_branch :=
    Repository.full_name (Run.head_repository run) +:+ ":" +:+ Run.head_branch run in
  let get_prs state := GetPulls repository full_branch "updated" "desc" state in
  github (GetRun repository run_id) (world st) = (inr run, w1) ->
  github (get_prs "open") w1 = (inr [], w2) ->
  github (get_prs "all") w2 = (inr all_prs, w3) ->
  let o := get_pr_number_from_workflow_run github repository run_id st in
  events o = [Call (GetRun repository run_id);
              Call (get_prs "open");
              LogInfo ("No open PR found for branch " +:+ full_branch
                       +:+ ", defaulting to all PRs");
              Call (get_prs "all")] /\
  final o = mkState w3 (files st) /\
  result o = match all_prs with
             | pr :: _ => inr (PullRequest.number pr)
             | [] => inl (CannotDeterminePR
                            ("No open PR found for branch " +:+ full_branch))
             end.
Proof.
  intros full_branch get_prs Hrun Hopen Hall o.
  assert (o = mkOutcome
                (match all_prs with
                 | pr :: _ => inr (PullRequest.number pr)
                 | [] => inl (CannotDeterminePR
                                ("No open PR found for branch " +:+ full_branch))
                 end)
                (mkState w3 (files st))
                [Call (GetRun repository run_id);
                 Call (get_prs "open");
                 LogInfo ("No open PR found for branch " +:+ full_branch
                          +:+ ", defaulting to all PRs");
                 Call (get_prs "all")]) as ->; [|auto].
  subst o. unfold get_pr_number_from_workflow_run.
  rewrite (bind_ok _ _ _ _ _ _ (call_ok github _ _ _ _ Hrun)).
  cbv beta zeta. fold full_branch.
  erewrite bind_ok.
  2:{ unfold try_except. erewrite try_except_else_caught.
      2:{ fold (get_prs "open").
          rewrite (bind_ok _ _ _ _ _ _ (call_ok_at github _ _ _ _ _ Hopen)).
          run_pure. reflexivity. }
      2:{ reflexivity. }
      run_pure. reflexivity. }
  cbv beta iota.
  erewrite bind_ok; [|run_pure; reflexivity].
  cbv beta.
  fold (get_prs "all"). unfold try_except.
  destruct all_prs as [|pr rest].
  - erewrite try_except_else_caught.
    2:{ rewrite (bind_ok _ _ _ _ _ _ (call_ok_at github _ _ _ _ _ Hall)).
        run_pure. reflexivity. }
    2:{ reflexivity. }
    reflexivity.
  - erewrite try_except_else_ok.
    2:{ rewrite (bind_ok _ _ _ _ _ _ (call_ok_at github _ _ _ _ _ Hall)).
        run_pure. reflexivity. }
    reflexivity.
Qed.

(** ** get_my_login *)

(** C6. The outcome of [get_my_login] is a function of the answer to the
    single self-identity lookup: the fallback login is substituted when,
    and only when, the lookup raises [Forbidden]; a successful lookup gives
    the login of the answer unchanged; any other failure is raised as it
    came. *)
Theorem get_my_login_cases {World} (github : GitHub World) (st : state World) :
  let o := get_my_login github st in
  events o = [Call GetUser] /\
  final o = mkState (snd (github GetUser (world st))) (files st) /\
  result o = match fst (github GetUser (world st)) with
             | inl (Forbidden _) => inr GITHUB_ACTIONS_LOGIN
             | inl (ApiError detail) => inl (ClientError (ApiError detail))
             | inr response => inr (User.login response)
             end.
Proof.
  unfold get_my_login, try_except_else, call. simpl.
  destruct (github GetUser (world st)) as [[[d|d]|u] w]; simpl; auto.
Qed.

(** ** download_artifact *)

Section Artifacts.
Context {World : Type}.
Variable github : GitHub World.
Variable ZipFile : bytes -> option archive.
Variable decode_utf8 : bytes -> option string.

Lemma next_filter {A} (f : A -> bool) (l : list A) :
  next (World := World) (List.filter f l)
  = match List.find f l with
    | Some a => ret a
    | None => raise StopIteration
    end.
Proof.
  induction l as [|x l IH]; simpl; [reflexivity|].
  destruct (f x); [reflexivity | exact IH].
Qed.

Lemma download_artifact_run repository artifact_name run_id filename st
    artifacts w1 :
  github (GetRunArtifacts repository run_id) (world st) = (inr artifacts, w1) ->
  download_artifact github ZipFile decode_utf8
    repository artifact_name run_id filename st
  = match List.find (fun a => String.eqb (Artifact.name a) artifact_name)
            artifacts with
    | None =>
        mkOutcome
          (inl (NoArtifact ("Not artifact found with name " +:+ artifact_name
                            +:+ " in run " +:+ pretty run_id)))
          (mkState w1 (files st))
          [Call (GetRunArtifacts repository run_id)]
    | Some a =>
        let download := GetArtifactZip repository (Artifact.id a) in
        mkOutcome
          (match fst (github download w1) with
           | inl e => inl (ClientError e)
           | inr zip_bytes =>
               match ZipFile zip_bytes with
               | None => inl BadZipFile
               | Some zipf =>
                   match zipf !! filename with
                   | None =>
                       inl (NoArtifact
                              ("File named " +:+ filename
                               +:+ " not found in artifact " +:+ artifact_name))
                   | Some data =>
                       match decode_utf8 data with
                       | Some content => inr content
                       | None => inl UnicodeDecodeError
                       end
                   end
               end
           end)
          (mkState (snd (github download w1)) (files st))
          [Call (GetRunArtifacts repository run_id); Call download]
    end.
Proof.
  intros Hlist. unfold download_artifact.
  rewrite (bind_ok _ _ _ _ _ _ (call_ok github _ _ _ _ Hlist)). cbv beta.
  rewrite next_filter.
  destruct (List.find _ artifacts) as [a|].
  - erewrite bind_ok; [|run_pure; reflexivity]. cbv beta zeta.
    destruct (github (GetArtifactZip repository (Artifact.id a)) w1)
      as [[e|zip_bytes] w2] eqn:Hzip.
    + rewrite (bind_err _ _ _ _ _ _ (call_err github _ (mkState w1 _) _ _ Hzip)).
      reflexivity.
    + rewrite (bind_ok _ _ _ _ _ _ (call_ok_at github _ _ _ _ _ Hzip)).
      cbv beta. cbn [fst snd]. unfold open_zip, zip_read, decode.
      destruct (ZipFile zip_bytes) as [zipf|]; run_pure; [|reflexivity].
      destruct (zipf !! filename) as [data|]; run_pure; [|reflexivity].
      destruct (decode_utf8 data); reflexivity.
  - reflexivity.
Qed.
End Artifacts.

Lemma named_false_iff (artifact_name : string) (l : list Artifact.t) :
  Forall (fun a => String.eqb (Artifact.name a) artifact_name = false) l <->
  Forall (fun a => Artifact.name a <> artifact_name) l.
Proof.
  apply Forall_iff. intros a. apply String.eqb_neq.
Qed.

(** C5, as the code has it.  Once the artifacts of the run are listed:
    when none is named [artifact_name] the invocation fails with
    [NoArtifact]; otherwise the first artifact of that name in the listing
    is the one downloaded, and when its archive opens, a missing entry
    [filename] gives [NoArtifact], and a present one gives its content
    decoded as UTF-8, or [UnicodeDecodeError] when it is not valid UTF-8.
    Conversely [NoArtifact] is raised in these two situations only. *)
Theorem download_artifact_no_artifact_cases {World} (github : GitHub World)
    (ZipFile : bytes -> option archive) (decode_utf8 : bytes -> option string)
    (repository artifact_name : string) (run_id : Z) (filename : string)
    (st : state World) :
  let o := download_artifact github ZipFile decode_utf8
             repository artifact_name run_id filename st in
  let listing := GetRunArtifacts repository run_id in
  let other (a : Artifact.t) := Artifact.name a <> artifact_name in
  (forall artifacts w1,
     github listing (world st) = (inr artifacts, w1) ->
     Forall other artifacts ->
     exists msg, result o = inl (NoArtifact msg))
  /\
  (forall pre a post w1 zip_bytes w2 zipf,
     github listing (world st) = (inr (pre ++ a :: post), w1) ->
     Forall other pre ->
     Artifact.name a = artifact_name ->
     github (GetArtifactZip repository (Artifact.id a)) w1 = (inr zip_bytes, w2) ->
     ZipFile zip_bytes = Some zipf ->
     events o = [Call listing; Call (GetArtifactZip repository (Artifact.id a))] /\
     match zipf !! filename with
     | None => exists msg, result o = inl (NoArtifact msg)
     | Some data =>
         result o = match decode_utf8 data with
                    | Some content => inr content
                    | None => inl UnicodeDecodeError
                    end
     end)
  /\
  (forall msg,
     result o = inl (NoArtifact msg) ->
     exists artifacts w1,
       github listing (world st) = (inr artifacts, w1) /\
       (Forall other artifacts \/
        exists pre a post zip_bytes w2 zipf,
          artifacts = pre ++ a :: post /\ Forall other pre /\
          Artifact.name a = artifact_name /\
          github (GetArtifactZip repository (Artifact.id a)) w1
            = (inr zip_bytes, w2) /\
          ZipFile zip_bytes = Some zipf /\
          zipf !! filename = None)).
Proof.
  intros o listing other.
  split; [|split].
  - intros artifacts w1 Hlist Hnone. subst o.
    rewrite (download_artifact_run _ _ _ _ _ _ _ _ _ _ Hlist).
    apply named_false_iff, find_none_iff in Hnone. rewrite Hnone.
    eexists. reflexivity.
  - intros pre a post w1 zip_bytes w2 zipf Hlist Hpre Ha Hzip Hopen. subst o.
    rewrite (download_artifact_run _ _ _ _ _ _ _ _ _ _ Hlist).
    assert (List.find (fun a => String.eqb (Artifact.name a) artifact_name)
              (pre ++ a :: post) = Some a) as Hfind.
    { apply find_first. exists pre, post. repeat split.
      - now apply String.eqb_eq.
      - now apply named_false_iff. }
    rewrite Hfind. cbv zeta. rewrite Hzip.
    split; [reflexivity|].
    cbn [result fst]. rewrite Hopen.
    destruct (zipf !! filename) as [data|]; [reflexivity|].
    eexists. reflexivity.
  - intros msg Hres.
    destruct (github listing (world st)) as [[e|artifacts] w1] eqn:Hlist.
    + exfalso. subst o. unfold download_artifact in Hres.
      rewrite (bind_err _ _ _ _ _ _ (call_err github _ _ _ _ Hlist)) in Hres.
      discriminate.
    + exists artifacts, w1. split; [reflexivity|]. subst o.
      rewrite (download_artifact_run _ _ _ _ _ _ _ _ _ _ Hlist) in Hres.
      destruct (List.find _ artifacts) as [a|] eqn:Hfind.
      * right. apply find_first in Hfind.
        destruct Hfind as (pre & post & -> & Ha & Hpre).
        apply String.eqb_eq in Ha. apply named_false_iff in Hpre.
        cbv zeta in Hres. cbn [result] in Hres.
        destruct (github (GetArtifactZip repository (Artifact.id a)) w1)
          as [[e|zip_bytes] w2] eqn:Hzip; cbn [fst] in Hres; [discriminate|].
        destruct (ZipFile zip_bytes) as [zipf|] eqn:Hopen; [|discriminate].
        destruct (zipf !! filename) as [data|] eqn:Hentry.
        -- destruct (decode_utf8 data); discriminate.
        -- exists pre, a, post, zip_bytes, w2, zipf. auto 10.
      * left. apply named_false_iff, find_none_iff. exact Hfind.
Qed.

(** ** set_output *)

Section Output.
Context {World : Type}.
Variable os : OS.

Lemma string_app_nil_r (s : string) : s +:+ EmptyString = s.
Proof. induction s as [|c s IH]; simpl; [reflexivity | now rewrite IH]. Qed.

Lemma open_append_ok (path : string) (st : state World) :
  open_error os path (files st) = None ->
  open_append os path st
  = mkOutcome (inr tt)
      (mkState (world st)
         (<[path := default EmptyString (files st !! path)]> (files st)))
      [OpenAppend path].
Proof. intros H. unfold open_append. now rewrite H. Qed.

Lemma open_append_refused (path : string) (st : state World) (e : file_error) :
  open_error os path (files st) = Some e ->
  open_append os path st = mkOutcome (inl (FileError e)) st [OpenAppend path].
Proof. intros H. unfold open_append. now rewrite H. Qed.

Lemma write_ok (path text : string) (w : World) (fs : gmap string string) :
  write_error os path text fs = None ->
  write os path text (mkState w fs)
  = mkOutcome (inr tt)
      (mkState w (<[path := default EmptyString (fs !! path) +:+ text]> fs))
      [WriteFile path text].
Proof. intros H. unfold write. cbn [world files]. now rewrite H. Qed.

Lemma write_refused (path text : string) (w : World) (fs : gmap string string)
    (e : file_error) :
  write_error os path text fs = Some e ->
  write os path text (mkState w fs)
  = mkOutcome (inl (FileError e)) (mkState w fs) [WriteFile path text].
Proof. intros H. unfold write. cbn [world files]. now rewrite H. Qed.

(** The lines are written one after the other when none is refused. *)
Lemma for_each_write (path : string) (kwargs : list (string * bool)) :
  (forall text fs, In text (map output_line kwargs) ->
                   write_error os path text fs = None) ->
  forall (w : World) (fs : gmap string string) (s : string),
    fs !! path = Some s ->
    for_each kwargs
      (fun '(key, value) =>
         write os path (key +:+ "=" +:+ json_dumps value +:+ newline))
      (mkState w fs)
    = mkOutcome (inr tt)
        (mkState w
           (<[path := s +:+ fold_right String.append EmptyString
                               (map output_line kwargs)]> fs))
        (map (WriteFile path) (map output_line kwargs)).
Proof.
  induction kwargs as [|[key value] rest IH]; intros Hok w fs s Hs.
  - cbn [for_each map fold_right]. rewrite string_app_nil_r.
    rewrite (insert_id fs path s Hs). reflexivity.
  - cbn [for_each map fold_right].
    erewrite bind_ok.
    2:{ apply write_ok. apply (Hok (output_line (key, value))). now left. }
    cbv beta. rewrite Hs. cbv [default from_option id].
    rewrite (IH (fun text fs' H => Hok text fs' (or_intror H))
               w _ (s +:+ output_line (key, value))).
    2:{ apply lookup_insert_eq. }
    unfold after. cbn [result final events app].
    rewrite insert_insert_eq, string_app_assoc. reflexivity.
Qed.

(** The first refused line ends the loop: the lines before it are in the
    file, the lines after it are not attempted. *)
Lemma for_each_write_stops (path : string) (bad : string * bool)
    (rest : list (string * bool)) (e : file_error)
    (done : list (string * bool)) :
  (forall text fs, In text (map output_line done) ->
                   write_error os path text fs = None) ->
  forall (w : World) (fs : gmap string string) (s : string),
    fs !! path = Some s ->
    write_error os path (output_line bad)
      (<[path := s +:+ fold_right String.append EmptyString
                          (map output_line done)]> fs) = Some e ->
    for_each (done ++ bad :: rest)
      (fun '(key, value) =>
         write os path (key +:+ "=" +:+ json_dumps value +:+ newline))
      (mkState w fs)
    = mkOutcome (inl (FileError e))
        (mkState w
           (<[path := s +:+ fold_right String.append EmptyString
                               (map output_line done)]> fs))
        (map (WriteFile path) (map output_line done)
         ++ [WriteFile path (output_line bad)]).
Proof.
  induction done as [|[key value] done IH]; intros Hok w fs s Hs Hbad.
  - cbn [map fold_right app] in *. rewrite string_app_nil_r in *.
    rewrite (insert_id fs path s Hs) in *.
    destruct bad as [key value]. cbn [for_each].
    erewrite bind_err; [reflexivity|]. now apply write_refused.
  - cbn [map fold_right app for_each] in *.
    erewrite bind_ok.
    2:{ apply write_ok. apply (Hok (output_line (key, value))). now left. }
    cbv beta. rewrite Hs. cbv [default from_option id].
    rewrite (IH (fun text fs' H => Hok text fs' (or_intror H))
               w _ (s +:+ output_line (key, value))).
    + unfold after. cbn [result final events app].
      rewrite insert_insert_eq, string_app_assoc. reflexivity.
    + apply lookup_insert_eq.
    + rewrite insert_insert_eq, string_app_assoc. exact Hbad.
Qed.

(** Whatever is refused, only the file at [path] can change. *)
Lemma for_each_write_frame (path : string) (kwargs : list (string * bool)) :
  forall (w : World) (fs : gmap string string),
    let o := for_each kwargs
               (fun '(key, value) =>
                  write os path (key +:+ "=" +:+ json_dumps value +:+ newline))
               (mkState w fs) in
    world (final o) = w /\
    forall other, other <> path -> files (final o) !! other = fs !! other.
Proof.
  induction kwargs as [|[key value] rest IH]; intros w fs; cbn [for_each].
  - split; [reflexivity | intros other _; reflexivity].
  - destruct (write_error os path (output_line (key, value)) fs) as [e|] eqn:E.
    + erewrite bind_err; [|apply write_refused; exact E].
      split; [reflexivity | intros other _; reflexivity].
    + erewrite bind_ok; [|apply write_ok; exact E].
      cbv beta. unfold after. cbn [final].
      split; [exact (proj1 (IH w _))|]. intros other Hne.
      etransitivity; [exact (proj2 (IH w _) other Hne)|].
      apply lookup_insert_ne. congruence.
Qed.

Lemma set_output_refused (path : string) (kwargs : list (string * bool))
    (st : state World) (e : file_error) :
  open_error os path (files st) = Some e ->
  set_output os (Some path) kwargs st
  = mkOutcome (inl (FileError e)) st [OpenAppend path].
Proof.
  intros H. unfold set_output.
  now rewrite (bind_err _ _ _ _ _ _ (open_append_refused path st e H)).
Qed.

Lemma set_output_run (path : string) (kwargs : list (string * bool))
    (st : state World) :
  open_error os path (files st) = None ->
  (forall text fs, In text (map output_line kwargs) ->
                   write_error os path text fs = None) ->
  set_output os (Some path) kwargs st
  = mkOutcome (inr tt)
      (mkState (world st)
         (<[path := default EmptyString (files st !! path)
                    +:+ fold_right String.append EmptyString
                          (map output_line kwargs)]> (files st)))
      (OpenAppend path :: map (WriteFile path) (map output_line kwargs)).
Proof.
  intros Hopen Hok. unfold set_output.
  rewrite (bind_ok _ _ _ _ _ _ (open_append_ok path st Hopen)). cbv beta.
  rewrite (for_each_write path kwargs Hok _ _
             (default EmptyString (files st !! path))).
  2:{ apply lookup_insert_eq. }
  unfold after. cbn [result final events app world files].
  rewrite insert_insert_eq. reflexivity.
Qed.

Lemma set_output_frame (path : string) (kwargs : list (string * bool))
    (st : state World) :
  let o := set_output os (Some path) kwargs st in
  world (final o) = world st /\
  forall other, other <> path -> files (final o) !! other = files st !! other.
Proof.
  cbv zeta. unfold set_output.
  destruct (open_error os path (files st)) as [e|] eqn:E.
  - rewrite (bind_err _ _ _ _ _ _ (open_append_refused path st e E)).
    split; [reflexivity | intros other _; reflexivity].
  - rewrite (bind_ok _ _ _ _ _ _ (open_append_ok path st E)). cbv beta.
    unfold after. cbn [final].
    split; [exact (proj1 (for_each_write_frame path kwargs _ _))|].
    intros other Hne.
    etransitivity; [exact (proj2 (for_each_write_frame path kwargs _ _) other Hne)|].
    apply lookup_insert_ne. congruence.
Qed.
End Output.

(** C10. Without a path [set_output] is a no-op: nothing is opened or
    written and the state is returned as it was.  With a path, and only
    then, the file is opened for appending; when the opening is refused
    the error is raised and nothing has changed; when the opening and the
    writes go through, the file has received one line [key=json(value)]
    per argument, in order.  In every case no other file changes. *)
Theorem set_output_effect {World} (os : OS) (kwargs : list (string * bool))
    (st : state World) :
  set_output os None kwargs st = mkOutcome (inr tt) st [] /\
  forall path : string,
    let o := set_output os (Some path) kwargs st in
    let lines := map output_line kwargs in
    (world (final o) = world st /\
     forall other, other <> path -> files (final o) !! other = files st !! other) /\
    (forall e, open_error os path (files st) = Some e ->
       o = mkOutcome (inl (FileError e)) st [OpenAppend path]) /\
    (open_error os path (files st) = None ->
     (forall text fs, In text lines -> write_error os path text fs = None) ->
     result o = inr tt /\
     events o = OpenAppend path :: map (WriteFile path) lines /\
     files (final o)
       = <[path := default EmptyString (files st !! path)
                   +:+ fold_right String.append EmptyString lines]> (files st)).
Proof.
  split; [reflexivity|].
  intros path o lines. subst o lines. split; [|split].
  - apply set_output_frame.
  - intros e He. now apply set_output_refused.
  - intros Hopen Hok. rewrite (set_output_run os path kwargs st Hopen Hok). auto.
Qed.

(** ** The escaping functions *)

(** C9. [escape_property] and [escape_data] are injective. *)
Theorem escape_injective :
  (forall s t : string, escape_property s = escape_property t -> s = t) /\
  (forall s t : string, escape_data s = escape_data t -> s = t).
Proof. split; [exact escape_property_inj | exact escape_data_inj]. Qed.

(** ** The theorems at work on scripted sessions *)

Lemma post_comment_respects_ownership_witness :
  let o := post_comment (Fake.github (Fake.with_comments Fake.thread (inr tt)))
             "foo" "foo/bar" 123 "hi!" "marker" Fake.start in
  ((forall e, In e (events o) -> is_create e = false) /\
   existsb is_update (events o) = true) /\
  (exists comments w1 c,
     Fake.github (Fake.with_comments Fake.thread (inr tt))
       (GetIssueComments "foo/bar" 123) (world Fake.start) = (inr comments, w1) /\
     In c comments /\ Comment.id c = 456 /\
     User.login (Comment.user c) = "foo" /\
     contains "marker" (Comment.body c) = true).
Proof.
  intros o.
  destruct (post_comment_respects_ownership
              (Fake.github (Fake.with_comments Fake.thread (inr tt)))
              "foo" "foo/bar" 123 "hi!" "marker" Fake.start) as [H1 H2].
  split.
  - apply (H1 Fake.thread 1%nat Fake.mine_marked).
    + reflexivity.
    + simpl. auto.
    + reflexivity.
  - apply (H2 "foo/bar" 456 "hi!"). vm_compute. auto.
Defined.

Lemma open_pr_is_returned_first_witness :
  let o := get_pr_number_from_workflow_run
             (Fake.github (Fake.with_pulls [PullRequest.mk 456; PullRequest.mk 7] []))
             "foo/bar" 123 Fake.start in
  result o = inr 456 /\
  events o = [Call (GetRun "foo/bar" 123);
              Call (GetPulls "foo/bar" "someone/repo-name:other"
                      "updated" "desc" "open")].
Proof.
  intros o.
  destruct (open_pr_is_returned_first
              (Fake.github (Fake.with_pulls [PullRequest.mk 456; PullRequest.mk 7] []))
              "foo/bar" 123 Fake.start Fake.the_run 1%nat 2%nat
              (PullRequest.mk 456) [PullRequest.mk 7])
    as (Hres & Hev & _ & _); [reflexivity | reflexivity |].
  split; [exact Hres | exact Hev].
Defined.

Lemma fallback_to_all_prs_witness :
  result (get_pr_number_from_workflow_run
            (Fake.github (Fake.with_pulls [] [PullRequest.mk 456]))
            "foo/bar" 123 Fake.start) = inr 456 /\
  result (get_pr_number_from_workflow_run
            (Fake.github (Fake.with_pulls [] []))
            "foo/bar" 123 Fake.start)
  = inl (CannotDeterminePR "No open PR found for branch someone/repo-name:other").
Proof.
  split.
  - destruct (fallback_to_all_prs
                (Fake.github (Fake.with_pulls [] [PullRequest.mk 456]))
                "foo/bar" 123 Fake.start Fake.the_run 1%nat 2%nat 3%nat
                [PullRequest.mk 456])
      as (_ & _ & Hres); [reflexivity | reflexivity | reflexivity |].
    exact Hres.
  - destruct (fallback_to_all_prs
                (Fake.github (Fake.with_pulls [] []))
                "foo/bar" 123 Fake.start Fake.the_run 1%nat 2%nat 3%nat [])
      as (_ & _ & Hres); [reflexivity | reflexivity | reflexivity |].
    exact Hres.
Defined.

Lemma forbidden_write_is_surfaced_witness :
  result (post_comment
            (Fake.github (Fake.with_comments Fake.thread (inl Fake.refused)))
            "foo" "foo/bar" 123 "hi!" "marker" Fake.start)
  = inl (CannotPostComment (ClientError (Forbidden "403"))) /\
  result (post_comment
            (Fake.github (Fake.with_comments [] (inl Fake.refused)))
            "foo" "foo/bar" 123 "hi!" "marker" Fake.start)
  = inl (CannotPostComment (ClientError (Forbidden "403"))).
Proof.
  split.
  - apply (proj1 (forbidden_write_is_surfaced
                    (Fake.github (Fake.with_comments Fake.thread (inl Fake.refused)))
                    "foo" "foo/bar" 123 "hi!" "marker" Fake.start
                    Fake.thread 1%nat 2%nat "403" eq_refl)
             Fake.mine_marked); reflexivity.
  - apply (proj2 (forbidden_write_is_surfaced
                    (Fake.github (Fake.with_comments [] (inl Fake.refused)))
                    "foo" "foo/bar" 123 "hi!" "marker" Fake.start
                    [] 1%nat 2%nat "403" eq_refl)); reflexivity.
Defined.

Lemma first_matching_comment_wins_witness :
  events (post_comment
            (Fake.github (Fake.with_comments Fake.thread (inr tt)))
            "foo" "foo/bar" 123 "hi!" "marker" Fake.start)
  = [Call (GetIssueComments "foo/bar" 123);
     LogInfo "Update previous comment";
     Call (PatchIssueComment "foo/bar" 456 "hi!")].
Proof.
  apply (first_matching_comment_wins
           (Fake.github (Fake.with_comments Fake.thread (inr tt)))
           "foo" "foo/bar" 123 "hi!" "marker" Fake.start
           [Fake.stranger_marked] [] [] Fake.mine_marked Fake.mine_marked_again
           1%nat).
  - reflexivity.
  - repeat constructor.
  - reflexivity.
  - reflexivity.
Defined.

Lemma update_log_precedes_update_witness :
  let o := post_comment
             (Fake.github (Fake.with_comments Fake.thread (inl Fake.refused)))
             "foo" "foo/bar" 123 "hi!" "marker" Fake.start in
  events o = [Call (GetIssueComments "foo/bar" 123);
              LogInfo "Update previous comment";
              Call (PatchIssueComment "foo/bar" 456 "hi!")] /\
  result o = inl (CannotPostComment (ClientError (Forbidden "403"))).
Proof.
  intros o.
  destruct (update_log_precedes_update
              (Fake.github (Fake.with_comments Fake.thread (inl Fake.refused)))
              "foo" "foo/bar" 123 "hi!" "marker" Fake.start
              Fake.thread Fake.mine_marked 1%nat)
    as (Hev & _ & Hforbidden); [reflexivity | reflexivity |].
  split; [exact Hev|].
  apply (Hforbidden "403" 2%nat). reflexivity.
Defined.

(** C8, as the spec words it, does not hold: the update log line is not
    tied to the success of the update.  With a comment of mine listed and
    the update refused, the line is emitted and the invocation fails. *)
Lemma update_log_not_tied_to_success :
  ~ (forall (World : Type) (github : GitHub World)
       (me repository : string) (pr_number : Z) (contents marker : string)
       (st : state World) (comments : list Comment.t) (c : Comment.t) (w1 : World),
       github (GetIssueComments repository pr_number) (world st) = (inr comments, w1) ->
       List.find (is_mine me marker) comments = Some c ->
       let o := post_comment github me repository pr_number contents marker st in
       In (LogInfo "Update previous comment") (events o) ->
       exists w2,
         github (PatchIssueComment repository (Comment.id c) contents) w1
         = (inr tt, w2)).
Proof.
  intros claim.
  destruct (claim nat
              (Fake.github (Fake.with_comments Fake.thread (inl Fake.refused)))
              "foo" "foo/bar" 123 "hi!" "marker" Fake.start
              Fake.thread Fake.mine_marked 1%nat eq_refl eq_refl)
    as [w2 Hok].
  - vm_compute. auto.
  - discriminate Hok.
Qed.

Lemma download_artifact_no_artifact_cases_witness :
  let arts := [Artifact.mk "bar" 456; Artifact.mk "foo" 789; Artifact.mk "foo" 790] in
  let gh := Fake.github (Fake.with_artifacts arts Fake.bar_bytes) in
  (exists msg,
     result (download_artifact gh Fake.ZipFile Fake.decode_ascii
               "foo/bar" "baz" 123 "foo.txt" Fake.start)
     = inl (NoArtifact msg)) /\
  (exists msg,
     result (download_artifact gh Fake.ZipFile Fake.decode_ascii
               "foo/bar" "foo" 123 "bar.txt" Fake.start)
     = inl (NoArtifact msg)) /\
  (events (download_artifact gh Fake.ZipFile Fake.decode_ascii
             "foo/bar" "foo" 123 "foo.txt" Fake.start)
   = [Call (GetRunArtifacts "foo/bar" 123); Call (GetArtifactZip "foo/bar" 789)] /\
   result (download_artifact gh Fake.ZipFile Fake.decode_ascii
             "foo/bar" "foo" 123 "foo.txt" Fake.start)
   = inr "bar").
Proof.
  intros arts gh. split; [|split].
  - apply (proj1 (download_artifact_no_artifact_cases gh Fake.ZipFile
                    Fake.decode_ascii "foo/bar" "baz" 123 "foo.txt" Fake.start)
             arts 1%nat); [reflexivity|].
    repeat constructor; discriminate.
  - destruct (proj1 (proj2 (download_artifact_no_artifact_cases gh Fake.ZipFile
                              Fake.decode_ascii "foo/bar" "foo" 123 "bar.txt"
                              Fake.start))
                [Artifact.mk "bar" 456] (Artifact.mk "foo" 789)
                [Artifact.mk "foo" 790] 1%nat Fake.bar_bytes 2%nat
                {[ "foo.txt" := Fake.bar_bytes ]})
      as [_ H]; [reflexivity | repeat constructor; discriminate
                | reflexivity | reflexivity | reflexivity |].
    exact H.
  - destruct (proj1 (proj2 (download_artifact_no_artifact_cases gh Fake.ZipFile
                              Fake.decode_ascii "foo/bar" "foo" 123 "foo.txt"
                              Fake.start))
                [Artifact.mk "bar" 456] (Artifact.mk "foo" 789)
                [Artifact.mk "foo" 790] 1%nat Fake.bar_bytes 2%nat
                {[ "foo.txt" := Fake.bar_bytes ]})
      as [Hev H]; [reflexivity | repeat constructor; discriminate
                  | reflexivity | reflexivity | reflexivity |].
    split; [exact Hev | exact H].
Defined.

Lemma escape_injective_witness :
  "50%: a,b" = "50%: a,b" /\ "line%0A" = "line%0A".
Proof.
  split.
  - apply (proj1 escape_injective "50%: a,b" "50%: a,b"). reflexivity.
  - apply (proj2 escape_injective "line%0A" "line%0A"). reflexivity.
Defined.

(** The cases of the test suite. *)

Example contains_examples :
  contains "marker" "Hey marker!" = true /\
  contains "marker" "Hey! hi! how are you?" = false /\
  contains "" "" = true.
Proof. repeat split. Qed.

Example test_post_comment__create :
  Forall
    (fun existing_comments =>
       let o := post_comment
                  (Fake.github (Fake.with_comments existing_comments (inr tt)))
                  "foo" "foo/bar" 123 "hi!" "marker" Fake.start in
       result o = inr tt /\
       events o = [Call (GetIssueComments "foo/bar" 123);
                   LogInfo "Adding new comment";
                   Call (PostIssueComment "foo/bar" 123 "hi!")])
    [ [];
      [Comment.mk 456 (User.mk "foo") "Hey! hi! how are you?"];
      [Comment.mk 456 (User.mk "bar") "Hey marker!"] ].
Proof. repeat constructor. Qed.

Example test_post_comment__update :
  let o := post_comment
             (Fake.github (Fake.with_comments [Fake.mine_marked] (inr tt)))
             "foo" "foo/bar" 123 "hi!" "marker" Fake.start in
  result o = inr tt /\
  events o = [Call (GetIssueComments "foo/bar" 123);
              LogInfo "Update previous comment";
              Call (PatchIssueComment "foo/bar" 456 "hi!")].
Proof. split; reflexivity. Qed.

Example test_download_artifact__no_artifact :
  result (download_artifact
            (Fake.github (Fake.with_artifacts [Artifact.mk "bar" 456] Fake.bar_bytes))
            Fake.ZipFile Fake.decode_ascii "foo/bar" "foo" 123 "foo.txt" Fake.start)
  = inl (NoArtifact "Not artifact found with name foo in run 123").
Proof. vm_compute. reflexivity. Qed.

Example escape_property_example :
  escape_property "50%: a,b" = "50%25%3A a%2Cb".
Proof. reflexivity. Qed.

Example set_output_example :
  files (final (set_output Fake.disk (Some "out") [("foo", true)] Fake.start))
    !! "out"
  = Some (String.append "foo=true" newline).
Proof. vm_compute. reflexivity. Qed.

Example get_my_login_example :
  result (get_my_login
            (Fake.github (Fake.mk (inl Fake.missing) (fun _ => inl Fake.missing)
                            (inl Fake.missing) (fun _ => inl Fake.missing)
                            (inl Fake.refused) (inl Fake.missing)
                            (fun _ => inl Fake.missing) (inl Fake.missing)))
            Fake.start)
  = inr "github-actions[bot]".
Proof. reflexivity. Qed.

(** ** More about the escaping functions *)

Lemma flat_map_string_app (f : ascii -> string) (a b : string) :
  flat_map_string f (a +:+ b) = flat_map_string f a +:+ flat_map_string f b.
Proof.
  induction a as [|c a IH]; simpl; [reflexivity|].
  now rewrite IH, string_app_assoc.
Qed.

Lemma has_char_app (c : ascii) (a b : string) :
  has_char c (a +:+ b) = has_char c a || has_char c b.
Proof.
  induction a as [|x a IH]; simpl; [reflexivity|].
  now rewrite IH, orb_assoc.
Qed.

Lemma string_length_app (a b : string) :
  String.length (a +:+ b) = (String.length a + String.length b)%nat.
Proof. induction a as [|x a IH]; simpl; [reflexivity | now rewrite IH]. Qed.

(** X1. Escaping is done piece by piece: the escaped form of a concatenation
    is the concatenation of the escaped forms. *)
Theorem escape_app (a b : string) :
  escape_property (a +:+ b) = escape_property a +:+ escape_property b /\
  escape_data (a +:+ b) = escape_data a +:+ escape_data b.
Proof.
  rewrite !escape_property_one_pass, !escape_data_one_pass.
  split; apply flat_map_string_app.
Qed.

Lemma enc_data_clean (c : ascii) :
  has_char CR (enc_data c) = false /\ has_char LF (enc_data c) = false.
Proof. destruct c as [[] [] [] [] [] [] [] []]; split; reflexivity. Qed.

Lemma enc_property_clean (c : ascii) :
  has_char CR (enc_property c) = false /\ has_char LF (enc_property c) = false /\
  has_char ":" (enc_property c) = false /\ has_char "," (enc_property c) = false.
Proof. destruct c as [[] [] [] [] [] [] [] []]; repeat split; reflexivity. Qed.

Lemma has_char_flat_map (x : ascii) (f : ascii -> string) (s : string) :
  (forall c, has_char x (f c) = false) ->
  has_char x (flat_map_string f s) = false.
Proof.
  intros Hf. induction s as [|c s IH]; simpl; [reflexivity|].
  now rewrite has_char_app, Hf, IH.
Qed.

Lemma escape_clean (s : string) :
  (has_char CR (escape_data s) = false /\ has_char LF (escape_data s) = false) /\
  (has_char CR (escape_property s) = false /\
   has_char LF (escape_property s) = false /\
   has_char ":" (escape_property s) = false /\
   has_char "," (escape_property s) = false).
Proof.
  rewrite escape_data_one_pass, escape_property_one_pass.
  repeat split; apply has_char_flat_map; intros c;
    first [apply (enc_data_clean c) | apply (enc_property_clean c)].
Qed.

(** X2. What is escaped is absent from the result: no carriage return or line
    feed is left by either function, and [escape_property] leaves no colon
    or comma either. *)
Theorem escape_removes_special (s : string) :
  (has_char CR (escape_data s) = false /\ has_char LF (escape_data s) = false) /\
  (has_char CR (escape_property s) = false /\
   has_char LF (escape_property s) = false /\
   has_char ":" (escape_property s) = false /\
   has_char "," (escape_property s) = false).
Proof. exact (escape_clean s). Qed.

Lemma enc_data_length (c : ascii) :
  String.length (enc_data c)
  = (1 + 2 * (count_char "%" (String c EmptyString)
              + count_char CR (String c EmptyString)
              + count_char LF (String c EmptyString)))%nat.
Proof. destruct c as [[] [] [] [] [] [] [] []]; reflexivity. Qed.

Lemma enc_property_length (c : ascii) :
  String.length (enc_property c)
  = (1 + 2 * (count_char "%" (String c EmptyString)
              + count_char CR (String c EmptyString)
              + count_char LF (String c EmptyString)
              + count_char ":" (String c EmptyString)
              + count_char "," (String c EmptyString)))%nat.
Proof. destruct c as [[] [] [] [] [] [] [] []]; reflexivity. Qed.

Lemma escape_sizes (s : string) :
  String.length (escape_data s)
  = (String.length s
     + 2 * (count_char "%" s + count_char CR s + count_char LF s))%nat /\
  String.length (escape_property s)
  = (String.length s
     + 2 * (count_char "%" s + count_char CR s + count_char LF s
            + count_char ":" s + count_char "," s))%nat.
Proof.
  rewrite escape_data_one_pass, escape_property_one_pass.
  split; induction s as [|c s IH]; try reflexivity.
  - cbn [flat_map_string]. rewrite string_length_app, IH, enc_data_length.
    cbn [count_char String.length]. lia.
  - cbn [flat_map_string]. rewrite string_length_app, IH, enc_property_length.
    cbn [count_char String.length]. lia.
Qed.

(** X3. Every escaped character costs two more characters, and nothing else
    changes the length. *)
Theorem escape_length (s : string) :
  String.length (escape_data s)
  = (String.length s
     + 2 * (count_char "%" s + count_char CR s + count_char LF s))%nat /\
  String.length (escape_property s)
  = (String.length s
     + 2 * (count_char "%" s + count_char CR s + count_char LF s
            + count_char ":" s + count_char "," s))%nat.
Proof. exact (escape_sizes s). Qed.

Lemma count_char_zero (c : ascii) (s : string) :
  count_char c s = 0%nat <-> has_char c s = false.
Proof.
  induction s as [|x s IH]; simpl; [tauto|].
  destruct (Ascii.eqb x c); simpl; [split; [lia | discriminate] | exact IH].
Qed.

Lemma flat_map_string_id (f : ascii -> string) (s : string) :
  (forall c, has_char c s = true -> f c = String c EmptyString) ->
  flat_map_string f s = s.
Proof.
  induction s as [|x s IH]; intros Hf; simpl; [reflexivity|].
  rewrite (Hf x), IH.
  - reflexivity.
  - intros c Hc. apply Hf. simpl. rewrite Hc. apply orb_true_r.
  - simpl. now rewrite Ascii.eqb_refl.
Qed.

Lemma escape_property_clean_id (s : string) :
  has_char "%" s = false -> has_char CR s = false -> has_char LF s = false ->
  has_char ":" s = false -> has_char "," s = false ->
  escape_property s = s.
Proof.
  intros H1 H2 H3 H4 H5. rewrite escape_property_one_pass.
  apply flat_map_string_id. intros c Hc.
  destruct (enc_property_shape c) as [[E _]|(x & y & E)]; [exact E|].
  exfalso. change CR with "013"%char in H2. change LF with "010"%char in H3.
  revert E Hc H1 H2 H3 H4 H5.
  destruct c as [[] [] [] [] [] [] [] []]; intros E; vm_compute in E;
    first [discriminate E | congruence].
Qed.

Lemma escape_data_clean_id (s : string) :
  has_char "%" s = false -> has_char CR s = false -> has_char LF s = false ->
  escape_data s = s.
Proof.
  intros H1 H2 H3. rewrite escape_data_one_pass.
  apply flat_map_string_id. intros c Hc.
  destruct (enc_data_shape c) as [[E _]|(x & y & E)]; [exact E|].
  exfalso. change CR with "013"%char in H2. change LF with "010"%char in H3.
  revert E Hc H1 H2 H3.
  destruct c as [[] [] [] [] [] [] [] []]; intros E; vm_compute in E;
    first [discriminate E | congruence].
Qed.

(** X4. A string comes out of the escaping unchanged exactly when it holds
    none of the characters that are escaped. *)
Theorem escape_fixed_points (s : string) :
  (escape_data s = s <->
     has_char "%" s = false /\ has_char CR s = false /\ has_char LF s = false) /\
  (escape_property s = s <->
     has_char "%" s = false /\ has_char CR s = false /\ has_char LF s = false /\
     has_char ":" s = false /\ has_char "," s = false).
Proof.
  split; split.
  - intros H. pose proof (proj1 (escape_sizes s)) as L. rewrite H in L.
    rewrite <- !count_char_zero. lia.
  - intros (H1 & H2 & H3). now apply escape_data_clean_id.
  - intros H. pose proof (proj2 (escape_sizes s)) as L. rewrite H in L.
    rewrite <- !count_char_zero. lia.
  - intros (H1 & H2 & H3 & H4 & H5). now apply escape_property_clean_id.
Qed.

(** ** Workflow commands *)

Lemma count_char_app (c : ascii) (a b : string) :
  count_char c (a +:+ b) = (count_char c a + count_char c b)%nat.
Proof.
  induction a as [|x a IH]; simpl; [reflexivity|]. rewrite IH. lia.
Qed.

Lemma has_char_concat (x : ascii) (sep : string) (l : list string) :
  has_char x sep = false ->
  Forall (fun v => has_char x v = false) l ->
  has_char x (String.concat sep l) = false.
Proof.
  intros Hsep Hl. induction Hl as [|v l Hv Hl IH]; [reflexivity|].
  destruct l as [|v' l]; [exact Hv|].
  change (String.concat sep (v :: v' :: l))
    with (v +:+ sep +:+ String.concat sep (v' :: l)).
  now rewrite !has_char_app, Hv, Hsep, IH.
Qed.

Lemma get_workflow_command_clean (x : ascii) (command command_value : string)
    (kwargs : list (string * string)) :
  has_char x "::= ," = false ->
  has_char x (escape_data command_value) = false ->
  (forall v, has_char x (escape_property v) = false) ->
  has_char x command = false ->
  Forall (fun kv => has_char x (fst kv) = false) kwargs ->
  has_char x (get_workflow_command command command_value kwargs) = false.
Proof.
  intros Hx Hdata Hprop Hcommand Hkeys. unfold get_workflow_command. cbv zeta.
  assert (has_char x ":" = false /\ has_char x "=" = false /\
          has_char x " " = false /\ has_char x "," = false) as (Hc & He & Hs & Hm).
  { revert Hx. simpl. rewrite !orb_false_r, !orb_false_iff. tauto. }
  assert (Forall (fun v => has_char x v = false)
            (map (fun '(key, value) => key +:+ "=" +:+ escape_property value)
               kwargs)) as Hvalues.
  { induction Hkeys as [|[key value] kwargs Hk _ IH]; constructor; [|exact IH].
    simpl in Hk. now rewrite !has_char_app, Hk, He, Hprop. }
  assert (has_char x "::" = false) as Hcc.
  { simpl in *. rewrite orb_false_r in Hc. now rewrite Hc. }
  rewrite !has_char_app, Hcc, Hcommand, Hdata, !orb_false_l, orb_false_r.
  destruct (map _ kwargs) as [|v l] eqn:E; [reflexivity|].
  rewrite has_char_app, Hs. now apply has_char_concat.
Qed.

(** X5. When the command name and the keys hold no line break, the text that
    [send_workflow_command] prints is one single line: its only line feed
    is the last character, and it holds no carriage return. *)
Theorem send_workflow_command_one_line (command command_value : string)
    (kwargs : list (string * string)) :
  has_char CR command = false -> has_char LF command = false ->
  Forall (fun kv => has_char CR (fst kv) = false /\ has_char LF (fst kv) = false)
    kwargs ->
  let text := send_workflow_command command command_value kwargs in
  text = get_workflow_command command command_value kwargs +:+ newline /\
  count_char LF text = 1%nat /\
  has_char CR text = false.
Proof.
  intros Hcr Hlf Hkeys text. subst text. unfold send_workflow_command.
  split; [reflexivity|].
  rewrite count_char_app, has_char_app.
  assert (has_char LF (get_workflow_command command command_value kwargs) = false)
    as H1.
  { apply get_workflow_command_clean; try reflexivity; try assumption.
    - apply (escape_clean command_value).
    - intros v. apply (escape_clean v).
    - eapply Forall_impl; [exact Hkeys|]. intros kv [_ H]. exact H. }
  assert (has_char CR (get_workflow_command command command_value kwargs) = false)
    as H2.
  { apply get_workflow_command_clean; try reflexivity; try assumption.
    - apply (escape_clean command_value).
    - intros v. apply (escape_clean v).
    - eapply Forall_impl; [exact Hkeys|]. intros kv [H _]. exact H. }
  apply count_char_zero in H1. rewrite H1, H2. split; reflexivity.
Qed.

(** X6. For a given command and given properties, distinct values give
    distinct commands. *)
Theorem get_workflow_command_value_inj (command v v' : string)
    (kwargs : list (string * string)) :
  get_workflow_command command v kwargs = get_workflow_command command v' kwargs ->
  v = v'.
Proof.
  unfold get_workflow_command. cbv zeta. intros H.
  do 4 apply (inj (String.append _)) in H.
  now apply escape_data_inj.
Qed.

(** *** The missing-coverage annotation *)

Lemma pretty_N_char_plain (c : ascii) :
  has_char c "0123456789" = false -> forall d, Ascii.eqb (pretty_N_char d) c = false.
Proof.
  intros Hc d. apply Ascii.eqb_neq. intros <-.
  revert Hc. unfold pretty_N_char.
  repeat case_match; simpl; rewrite ?Ascii.eqb_refl, ?orb_true_r; discriminate.
Qed.

Lemma has_char_pretty_N_go (c : ascii) (x : N) :
  has_char c "0123456789" = false ->
  forall s, has_char c (pretty_N_go x s) = has_char c s.
Proof.
  intros Hc. induction (N.lt_wf_0 x) as [x _ IH]; intros s.
  destruct (decide (x = 0)%N) as [->|Hx]; [now rewrite pretty_N_go_0|].
  rewrite pretty_N_go_step by lia.
  rewrite IH by (apply N.div_lt; lia).
  simpl. now rewrite pretty_N_char_plain.
Qed.

Lemma has_char_pretty_Z (c : ascii) (n : Z) :
  has_char c "-0123456789" = false -> has_char c (pretty n) = false.
Proof.
  intros Hc.
  assert (has_char c "0123456789" = false /\ has_char c "-" = false) as [Hd Hm].
  { revert Hc. simpl. rewrite !orb_false_iff. tauto. }
  assert (forall p : positive, has_char c (pretty p) = false) as Hp.
  { intros p. unfold pretty, pretty_positive, pretty, pretty_N.
    destruct (decide (N.pos p = 0)%N); [discriminate|].
    now rewrite has_char_pretty_N_go. }
  destruct n as [|p|p]; unfold pretty, pretty_Z.
  - revert Hd. simpl. rewrite !orb_false_iff. tauto.
  - apply Hp.
  - rewrite has_char_app, Hm. apply Hp.
Qed.

Lemma split_at_first (x : ascii) (a a' b b' : string) :
  has_char x a = false -> has_char x a' = false ->
  a +:+ String x b = a' +:+ String x b' -> a = a' /\ b = b'.
Proof.
  revert a'. induction a as [|c a IH]; intros [|c' a']; simpl; intros Ha Ha' H.
  - now injection H.
  - injection H as <- _. now rewrite Ascii.eqb_refl in Ha'.
  - injection H as -> _. now rewrite Ascii.eqb_refl in Ha.
  - injection H as -> H.
    apply orb_false_iff in Ha as [_ Ha]. apply orb_false_iff in Ha' as [_ Ha'].
    destruct (IH a' Ha Ha' H) as [-> ->]. auto.
Qed.

Lemma annotation_text (annotation_type file : string) (line : Z) :
  create_missing_coverage_annotation annotation_type file line
  = "::" +:+ annotation_type +:+ " file=" +:+ escape_property file
    +:+ ",line=" +:+ pretty line +:+ "::This line has no coverage" +:+ newline.
Proof.
  unfold create_missing_coverage_annotation, send_workflow_command,
    get_workflow_command.
  cbv zeta. cbn [map String.concat].
  rewrite (escape_property_clean_id (pretty line))
    by (apply has_char_pretty_Z; reflexivity).
  change (escape_data MISSING_COVERAGE_MESSAGE) with "This line has no coverage".
  rewrite !string_app_assoc. reflexivity.
Qed.

(** X7. The annotation printed for a file and a line is the line
    [::type file=<escaped file>,line=<line>::This line has no coverage]:
    the line number goes through the property escaping unchanged. *)
Theorem create_missing_coverage_annotation_text (annotation_type file : string)
    (line : Z) :
  create_missing_coverage_annotation annotation_type file line
  = "::" +:+ annotation_type +:+ " file=" +:+ escape_property file
    +:+ ",line=" +:+ pretty line +:+ "::This line has no coverage" +:+ newline.
Proof. exact (annotation_text annotation_type file line). Qed.

(** X8. Two annotations of the same type are the same text only when they
    name the same file and the same line. *)
Theorem create_missing_coverage_annotation_inj (annotation_type file file' : string)
    (line line' : Z) :
  create_missing_coverage_annotation annotation_type file line
  = create_missing_coverage_annotation annotation_type file' line' ->
  file = file' /\ line = line'.
Proof.
  rewrite !annotation_text. intros H.
  do 3 apply (inj (String.append _)) in H.
  apply (split_at_first ",") in H;
    [|apply (escape_clean file) | apply (escape_clean file')].
  destruct H as [Hfile H]. apply escape_property_inj in Hfile.
  apply (inj (String.append "line=")) in H.
  apply (split_at_first ":") in H;
    [|apply has_char_pretty_Z; reflexivity | apply has_char_pretty_Z; reflexivity].
  destruct H as [Hline _]. apply (inj pretty) in Hline. auto.
Qed.

Lemma create_missing_coverage_annotation_inj_witness :
  "C:\src\a,b.py" = "C:\src\a,b.py" /\ 12 = 12.
Proof.
  apply (create_missing_coverage_annotation_inj "warning"
           "C:\src\a,b.py" "C:\src\a,b.py" 12 12).
  reflexivity.
Defined.

Lemma send_workflow_command_one_line_witness :
  let text := send_workflow_command "warning"
                (String.append "two" (String.append newline "lines"))
                [("file", "a:b"); ("line", "3")] in
  text = "::warning file=a%3Ab,line=3::two%0Alines" +:+ newline /\
  count_char LF text = 1%nat /\
  has_char CR text = false.
Proof.
  apply (send_workflow_command_one_line "warning"
           (String.append "two" (String.append newline "lines"))
           [("file", "a:b"); ("line", "3")]).
  - reflexivity.
  - reflexivity.
  - repeat constructor.
Defined.

Lemma get_workflow_command_value_inj_witness : "50%" = "50%".
Proof.
  apply (get_workflow_command_value_inj "notice" "50%" "50%" [("title", "t")]).
  reflexivity.
Defined.

(** ** RepositoryInfo *)

(** X9. Among branch references, [is_default_branch] accepts the one of the
    default branch only; and the bare name of the default branch is not
    accepted, since it is not a reference. *)
Theorem is_default_branch_ref (self : RepositoryInfo.t) (branch : string) :
  (RepositoryInfo.is_default_branch self ("refs/heads/" +:+ branch) = true <->
   branch = RepositoryInfo.default_branch self) /\
  RepositoryInfo.is_default_branch self (RepositoryInfo.default_branch self)
  = false.
Proof.
  unfold RepositoryInfo.is_default_branch. split.
  - rewrite String.eqb_eq. split.
    + intros H. apply (inj (String.append _)) in H. auto.
    + intros ->. reflexivity.
  - apply String.eqb_neq. intros H. apply (f_equal String.length) in H.
    rewrite string_length_app in H. simpl in H. lia.
Qed.

(** ** More about post_comment *)

Lemma prefix_spec (sub s : string) :
  String.prefix sub s = true <-> exists post, s = sub +:+ post.
Proof.
  revert s. induction sub as [|a sub IH]; intros s; simpl.
  - split; [intros _; now exists s | intros _; destruct s; reflexivity].
  - destruct s as [|b s]; simpl.
    + split; [discriminate | intros [post H]; discriminate].
    + destruct (ascii_dec a b) as [->|Hab].
      * rewrite IH. split; intros [post H]; exists post.
        -- now rewrite H.
        -- now injection H.
      * split; [discriminate|]. intros [post H]. injection H as H _.
        congruence.
Qed.

Lemma contains_unfold (sub s : string) :
  contains sub s
  = String.prefix sub s ||
    match s with
    | EmptyString => false
    | String _ s' => contains sub s'
    end.
Proof. destruct s; reflexivity. Qed.

Lemma contains_spec (sub s : string) :
  contains sub s = true <-> exists pre post, s = pre +:+ sub +:+ post.
Proof.
  split.
  - induction s as [|c s IH]; rewrite contains_unfold, orb_true_iff.
    + intros [H|H]; [|discriminate].
      apply prefix_spec in H as [post H]. now exists EmptyString, post.
    + intros [H|H].
      * apply prefix_spec in H as [post H]. now exists EmptyString, post.
      * destruct (IH H) as (pre & post & ->). now exists (String c pre), post.
  - intros (pre & post & ->). induction pre as [|c pre IH].
    + rewrite contains_unfold, orb_true_iff. left.
      apply prefix_spec. now exists post.
    + rewrite contains_unfold. simpl. rewrite IH. apply orb_true_r.
Qed.

(** X10. A comment is taken for mine exactly when its author's login is [me]
    and its body is some text, the marker, and some more text. *)
Theorem is_mine_substring (me marker : string) (c : Comment.t) :
  is_mine me marker c = true <->
  User.login (Comment.user c) = me /\
  exists pre post, Comment.body c = pre +:+ marker +:+ post.
Proof. rewrite is_mine_spec, contains_spec. reflexivity. Qed.

Section PostCommentMore.
Context {World : Type}.
Variable github : GitHub World.
Variables (me repository : string) (pr_number : Z) (contents marker : string).
Variable st : state World.

Let listing := GetIssueComments repository pr_number.
Let o := post_comment github me repository pr_number contents marker st.

Lemma post_comment_listing_error (e : client_error) (w1 : World) :
  github listing (world st) = (inl e, w1) ->
  o = mkOutcome (inl (ClientError e)) (mkState w1 (files st)) [Call listing].
Proof.
  intros H. subst o. unfold post_comment.
  now rewrite (bind_err _ _ _ _ _ _ (call_err github _ _ _ _ H)).
Qed.

(** X11. When the comments cannot be listed, the error of the listing is
    raised as it came, a forbidden one included: it is not turned into
    [CannotPostComment]; nothing is logged and nothing is written. *)
Theorem post_comment_listing_failure (e : client_error) (w1 : World) :
  github listing (world st) = (inl e, w1) ->
  result o = inl (ClientError e) /\
  events o = [Call listing] /\
  final o = mkState w1 (files st).
Proof. intros H. rewrite (post_comment_listing_error e w1 H). auto. Qed.

(** X12. When no listed comment is mine (an empty listing included), a new
    comment is created: the events are the listing, the log line "Adding
    new comment" and one creation call with the contents; no update is
    issued, and the invocation ends normally when the creation succeeds. *)
Theorem post_comment_creates_when_none_mine (comments : list Comment.t)
    (w1 : World) :
  github listing (world st) = (inr comments, w1) ->
  Forall (fun c => is_mine me marker c = false) comments ->
  events o = [Call listing; LogInfo "Adding new comment";
              Call (PostIssueComment repository pr_number contents)] /\
  existsb is_update (events o) = false /\
  (forall w2,
     github (PostIssueComment repository pr_number contents) w1 = (inr tt, w2) ->
     result o = inr tt /\ final o = mkState w2 (files st)).
Proof.
  intros Hget Hnone.
  destruct (post_comment_run github me repository pr_number contents marker
              st comments w1 Hget) as (Hev & Hfin & Hres).
  fold o in Hev, Hfin, Hres. apply find_none_iff in Hnone.
  rewrite Hnone in Hev, Hfin, Hres. rewrite Hev.
  split; [reflexivity|]. split; [reflexivity|].
  intros w2 Hpost. rewrite Hpost in Hfin, Hres. auto.
Qed.

(** X13. An error of the update or of the creation call that is not the
    forbidden one is raised as it came, not as [CannotPostComment]. *)
Theorem post_comment_other_write_error (comments : list Comment.t)
    (w1 w2 : World) (detail : string) :
  github listing (world st) = (inr comments, w1) ->
  (forall c,
     List.find (is_mine me marker) comments = Some c ->
     github (PatchIssueComment repository (Comment.id c) contents) w1
       = (inl (ApiError detail), w2) ->
     result o = inl (ClientError (ApiError detail)))
  /\
  (List.find (is_mine me marker) comments = None ->
   github (PostIssueComment repository pr_number contents) w1
     = (inl (ApiError detail), w2) ->
   result o = inl (ClientError (ApiError detail))).
Proof.
  intros Hget.
  destruct (post_comment_run github me repository pr_number contents marker
              st comments w1 Hget) as (_ & _ & Hres).
  fold o in Hres. split.
  - intros c Hfind Hpatch. rewrite Hfind, Hpatch in Hres. exact Hres.
  - intros Hfind Hpost. rewrite Hfind, Hpost in Hres. exact Hres.
Qed.

(** X14. Whatever the service answers, [post_comment] starts with the listing,
    issues at most one write (an update or a creation, never both), leaves
    the local files alone, and fails with [CannotPostComment] only after a
    write that was refused as forbidden. *)
Theorem post_comment_footprint :
  (exists rest, events o = Call listing :: rest) /\
  (length (List.filter (fun e => is_create e || is_update e) (events o)) <= 1)%nat /\
  files (final o) = files st /\
  (forall cause,
     result o = inl (CannotPostComment cause) ->
     (exists detail, cause = ClientError (Forbidden detail)) /\
     existsb (fun e => is_create e || is_update e) (events o) = true).
Proof.
  destruct (github listing (world st)) as [[e|comments] w1] eqn:Hget.
  - rewrite (post_comment_listing_error e w1 Hget). simpl.
    split; [eauto|]. split; [lia|]. split; [reflexivity|].
    intros cause H. discriminate H.
  - destruct (post_comment_run github me repository pr_number contents marker
                st comments w1 Hget) as (Hev & Hfin & Hres).
    fold o in Hev, Hfin, Hres. rewrite Hev, Hfin, Hres.
    split; [eauto|].
    destruct (List.find (is_mine me marker) comments) as [c|];
      (split; [simpl; lia|]); (split; [reflexivity|]);
      intros cause; destruct (github _ w1) as [[[d|d]|[]] w2]; simpl;
      intros [= <-] || discriminate; eauto.
Qed.
End PostCommentMore.

Lemma contains_empty (s : string) : contains EmptyString s = true.
Proof. rewrite contains_unfold. destruct s; reflexivity. Qed.

(** X15. With an empty marker every comment of [me] counts as mine: the first
    comment whose author is [me] is updated, whatever its body. *)
Theorem post_comment_empty_marker {World} (github : GitHub World)
    (me repository : string) (pr_number : Z) (contents : string)
    (st : state World) (pre post : list Comment.t) (c : Comment.t) (w1 : World) :
  github (GetIssueComments repository pr_number) (world st)
    = (inr (pre ++ c :: post), w1) ->
  Forall (fun c' => User.login (Comment.user c') <> me) pre ->
  User.login (Comment.user c) = me ->
  events (post_comment github me repository pr_number contents EmptyString st)
  = [Call (GetIssueComments repository pr_number);
     LogInfo "Update previous comment";
     Call (PatchIssueComment repository (Comment.id c) contents)].
Proof.
  intros Hget Hpre Hc.
  destruct (post_comment_run github me repository pr_number contents EmptyString
              st _ w1 Hget) as (Hev & _ & _).
  assert (List.find (is_mine me EmptyString) (pre ++ c :: post) = Some c) as Hfind.
  { apply find_first. exists pre, post. repeat split.
    - unfold is_mine. rewrite contains_empty, andb_true_r. now apply String.eqb_eq.
    - eapply Forall_impl; [exact Hpre|]. intros c' Hc'. unfold is_mine.
      apply String.eqb_neq in Hc'. now rewrite Hc'. }
  rewrite Hfind in Hev. exact Hev.
Qed.

(** ** More about get_pr_number_from_workflow_run *)

Section PrNumberMore.
Context {World : Type}.
Variable github : GitHub World.
Variables (repository : string) (run_id : Z).
Variable st : state World.

Let o := get_pr_number_from_workflow_run github repository run_id st.

Lemma call_err_at (r : request) (w : World) fs (e : client_error) (w' : World) :
  github r w = (inl e, w') ->
  call github r (mkState w fs)
  = mkOutcome (inl (ClientError e)) (mkState w' fs) [Call r].
Proof. intros H. now apply call_err. Qed.

Lemma pr_number_run_error (e : client_error) (w1 : World) :
  github (GetRun repository run_id) (world st) = (inl e, w1) ->
  o = mkOutcome (inl (ClientError e)) (mkState w1 (files st))
        [Call (GetRun repository run_id)].
Proof.
  intros H. subst o. unfold get_pr_number_from_workflow_run.
  now rewrite (bind_err _ _ _ _ _ _ (call_err github _ _ _ _ H)).
Qed.

Section RunFound.
Variables (run : Run.t) (w1 : World).
Hypothesis Hrun : github (GetRun repository run_id) (world st) = (inr run, w1).

Let full_branch :=
  Repository.full_name (Run.head_repository run) +:+ ":" +:+ Run.head_branch run.
Let get_prs state := GetPulls repository full_branch "updated" "desc" state.

Lemma pr_number_open_error (e : client_error) (w2 : World) :
  github (get_prs "open") w1 = (inl e, w2) ->
  o = mkOutcome (inl (ClientError e)) (mkState w2 (files st))
        [Call (GetRun repository run_id); Call (get_prs "open")].
Proof.
  intros Hopen. subst o. unfold get_pr_number_from_workflow_run.
  rewrite (bind_ok _ _ _ _ _ _ (call_ok github _ _ _ _ Hrun)).
  cbv beta zeta. fold full_branch.
  erewrite bind_err.
  2:{ unfold try_except. erewrite try_except_else_uncaught.
      2:{ fold (get_prs "open").
          rewrite (bind_err _ _ _ _ _ _ (call_err_at _ _ _ _ _ Hopen)).
          reflexivity. }
      2:{ reflexivity. }
      reflexivity. }
  reflexivity.
Qed.

Lemma pr_number_open_found (pr : PullRequest.t) (prs : list PullRequest.t)
    (w2 : World) :
  github (get_prs "open") w1 = (inr (pr :: prs), w2) ->
  o = mkOutcome (inr (PullRequest.number pr)) (mkState w2 (files st))
        [Call (GetRun repository run_id); Call (get_prs "open")].
Proof.
  intros Hopen. subst o. unfold get_pr_number_from_workflow_run.
  rewrite (bind_ok _ _ _ _ _ _ (call_ok github _ _ _ _ Hrun)).
  cbv beta zeta. fold full_branch.
  erewrite bind_ok.
  2:{ unfold try_except. erewrite try_except_else_ok.
      2:{ fold (get_prs "open").
          rewrite (bind_ok _ _ _ _ _ _ (call_ok_at github _ _ _ _ _ Hopen)).
          run_pure. reflexivity. }
      run_pure. reflexivity. }
  reflexivity.
Qed.

Lemma pr_number_fallback (w2 : World) (answer : client_error + list PullRequest.t)
    (w3 : World) :
  github (get_prs "open") w1 = (inr [], w2) ->
  github (get_prs "all") w2 = (answer, w3) ->
  o = mkOutcome
        (match answer with
         | inl e => inl (ClientError e)
         | inr [] => inl (CannotDeterminePR
                            ("No open PR found for branch " +:+ full_branch))
         | inr (pr :: _) => inr (PullRequest.number pr)
         end)
        (mkState w3 (files st))
        [Call (GetRun repository run_id);
         Call (get_prs "open");
         LogInfo ("No open PR found for branch " +:+ full_branch
                  +:+ ", defaulting to all PRs");
         Call (get_prs "all")].
Proof.
  intros Hopen Hall. subst o. unfold get_pr_number_from_workflow_run.
  rewrite (bind_ok _ _ _ _ _ _ (call_ok github _ _ _ _ Hrun)).
  cbv beta zeta. fold full_branch.
  erewrite bind_ok.
  2:{ unfold try_except. erewrite try_except_else_caught.
      2:{ fold (get_prs "open").
          rewrite (bind_ok _ _ _ _ _ _ (call_ok_at github _ _ _ _ _ Hopen)).
          run_pure. reflexivity. }
      2:{ reflexivity. }
      run_pure. reflexivity. }
  cbv beta iota.
  erewrite bind_ok; [|run_pure; reflexivity].
  cbv beta. fold (get_prs "all"). unfold try_except.
  destruct answer as [e|[|pr rest]].
  - erewrite try_except_else_uncaught.
    2:{ rewrite (bind_err _ _ _ _ _ _ (call_err_at _ _ _ _ _ Hall)).
        reflexivity. }
    2:{ reflexivity. }
    reflexivity.
  - erewrite try_except_else_caught.
    2:{ rewrite (bind_ok _ _ _ _ _ _ (call_ok_at github _ _ _ _ _ Hall)).
        run_pure. reflexivity. }
    2:{ reflexivity. }
    reflexivity.
  - erewrite try_except_else_ok.
    2:{ rewrite (bind_ok _ _ _ _ _ _ (call_ok_at github _ _ _ _ _ Hall)).
        run_pure. reflexivity. }
    reflexivity.
Qed.
End RunFound.

(** X16. When the run cannot be fetched, its error is raised as it came and no
    pull request is queried. *)
Theorem pr_number_run_lookup_failure (e : client_error) (w1 : World) :
  github (GetRun repository run_id) (world st) = (inl e, w1) ->
  result o = inl (ClientError e) /\
  events o = [Call (GetRun repository run_id)] /\
  final o = mkState w1 (files st).
Proof. intros H. rewrite (pr_number_run_error e w1 H). auto. Qed.

(** X17. An error of a pull-request query is not a missing pull request: when
    the [state=open] query fails, its error is raised and there is no
    fallback (no log line, no [state=all] query); when the [state=all]
    query fails, its error is raised, not [CannotDeterminePR]. *)
Theorem pr_number_query_failure (run : Run.t) (w1 w2 : World) (e : client_error) :
  let full_branch :=
    Repository.full_name (Run.head_repository run) +:+ ":" +:+ Run.head_branch run in
  let get_prs state := GetPulls repository full_branch "updated" "desc" state in
  github (GetRun repository run_id) (world st) = (inr run, w1) ->
  (github (get_prs "open") w1 = (inl e, w2) ->
   result o = inl (ClientError e) /\
   events o = [Call (GetRun repository run_id); Call (get_prs "open")])
  /\
  (forall w3,
     github (get_prs "open") w1 = (inr [], w2) ->
     github (get_prs "all") w2 = (inl e, w3) ->
     result o = inl (ClientError e)).
Proof.
  intros full_branch get_prs Hrun. split.
  - intros Hopen. rewrite (pr_number_open_error run w1 Hrun e w2 Hopen). auto.
  - intros w3 Hopen Hall.
    rewrite (pr_number_fallback run w1 Hrun w2 _ w3 Hopen Hall). reflexivity.
Qed.

(** X18. Whatever the service answers, the resolution only reads: it issues no
    update and no creation call and leaves the local files alone; it makes
    at most three requests; and the only ways it fails are an error of the
    service or [CannotDeterminePR] (the [StopIteration] used inside never
    comes out). *)
Theorem pr_number_footprint :
  (forall e, In e (events o) -> is_create e = false /\ is_update e = false) /\
  (length (List.filter (fun e => match e with Call _ => true | _ => false end)
             (events o)) <= 3)%nat /\
  files (final o) = files st /\
  (forall e, result o = inl e ->
     (exists ce, e = ClientError ce) \/ (exists msg, e = CannotDeterminePR msg)).
Proof.
  assert (forall evs : list event,
            Forall (fun e => is_create e = false /\ is_update e = false) evs ->
            forall e, In e evs -> is_create e = false /\ is_update e = false)
    as Hall.
  { intros evs H. now apply Stdlib.Lists.List.Forall_forall. }
  destruct (github (GetRun repository run_id) (world st)) as [[e|run] w1] eqn:Hrun.
  { rewrite (pr_number_run_error e w1 Hrun). cbn [events result final files].
    split; [apply Hall; repeat constructor|].
    split; [simpl; lia|]. split; [reflexivity|]. intros e' [= <-]. eauto. }
  destruct (github (GetPulls repository
                      (Repository.full_name (Run.head_repository run) +:+ ":"
                       +:+ Run.head_branch run) "updated" "desc" "open") w1)
    as [[e|[|pr prs]] w2] eqn:Hopen.
  - rewrite (pr_number_open_error run w1 Hrun e w2 Hopen). cbn [events result final files].
    split; [apply Hall; repeat constructor|].
    split; [simpl; lia|]. split; [reflexivity|]. intros e' [= <-]. eauto.
  - destruct (github (GetPulls repository
                        (Repository.full_name (Run.head_repository run) +:+ ":"
                         +:+ Run.head_branch run) "updated" "desc" "all") w2)
      as [answer w3] eqn:Hfallback.
    rewrite (pr_number_fallback run w1 Hrun w2 answer w3 Hopen Hfallback). cbn [events result final files].
    split; [apply Hall; repeat constructor|].
    split; [simpl; lia|]. split; [reflexivity|].
    destruct answer as [e|[|pr rest]]; intros e' H; try discriminate H;
      injection H as <-; eauto.
  - rewrite (pr_number_open_found run w1 Hrun pr prs w2 Hopen). cbn [events result final files].
    split; [apply Hall; repeat constructor|].
    split; [simpl; lia|]. split; [reflexivity|]. intros e' H. discriminate H.
Qed.
End PrNumberMore.

(** ** More about download_artifact *)

Section DownloadMore.
Context {World : Type}.
Variable github : GitHub World.
Variable ZipFile : bytes -> option archive.
Variable decode_utf8 : bytes -> option string.
Variables (repository artifact_name : string) (run_id : Z) (filename : string).
Variable st : state World.

Let listing := GetRunArtifacts repository run_id.
Let o := download_artifact github ZipFile decode_utf8
           repository artifact_name run_id filename st.

Lemma download_listing_error (e : client_error) (w1 : World) :
  github listing (world st) = (inl e, w1) ->
  o = mkOutcome (inl (ClientError e)) (mkState w1 (files st)) [Call listing].
Proof.
  intros H. subst o. unfold download_artifact.
  now rewrite (bind_err _ _ _ _ _ _ (call_err github _ _ _ _ H)).
Qed.

(** X19. When the artifacts cannot be listed, the error is raised as it came
    and nothing is downloaded. *)
Theorem download_artifact_listing_failure (e : client_error) (w1 : World) :
  github listing (world st) = (inl e, w1) ->
  result o = inl (ClientError e) /\
  events o = [Call listing] /\
  final o = mkState w1 (files st).
Proof. intros H. rewrite (download_listing_error e w1 H). auto. Qed.

(** X20. When the first artifact of the name is found but its download fails,
    the error of the download is raised as it came: it is not reported as
    a missing artifact. *)
Theorem download_artifact_download_failure (pre post : list Artifact.t)
    (a : Artifact.t) (w1 w2 : World) (e : client_error) :
  github listing (world st) = (inr (pre ++ a :: post), w1) ->
  Forall (fun a' => Artifact.name a' <> artifact_name) pre ->
  Artifact.name a = artifact_name ->
  github (GetArtifactZip repository (Artifact.id a)) w1 = (inl e, w2) ->
  result o = inl (ClientError e) /\
  events o = [Call listing; Call (GetArtifactZip repository (Artifact.id a))].
Proof.
  intros Hlist Hpre Ha Hzip. subst o.
  rewrite (download_artifact_run _ _ _ _ _ _ _ _ _ _ Hlist).
  assert (List.find (fun a => String.eqb (Artifact.name a) artifact_name)
            (pre ++ a :: post) = Some a) as Hfind.
  { apply find_first. exists pre, post. repeat split.
    - now apply String.eqb_eq.
    - now apply named_false_iff. }
  rewrite Hfind. cbv zeta. rewrite Hzip. auto.
Qed.

(** X21. Only a missing entry is reported as [NoArtifact]: downloaded bytes
    that are no archive end in [BadZipFile], and an entry that is present
    but is not valid text ends in [UnicodeDecodeError]. *)
Theorem download_artifact_bad_archive (pre post : list Artifact.t)
    (a : Artifact.t) (w1 w2 : World) (zip_bytes : bytes) :
  github listing (world st) = (inr (pre ++ a :: post), w1) ->
  Forall (fun a' => Artifact.name a' <> artifact_name) pre ->
  Artifact.name a = artifact_name ->
  github (GetArtifactZip repository (Artifact.id a)) w1 = (inr zip_bytes, w2) ->
  (ZipFile zip_bytes = None -> result o = inl BadZipFile) /\
  (forall zipf data,
     ZipFile zip_bytes = Some zipf ->
     zipf !! filename = Some data ->
     decode_utf8 data = None ->
     result o = inl UnicodeDecodeError).
Proof.
  intros Hlist Hpre Ha Hzip. subst o.
  rewrite (download_artifact_run _ _ _ _ _ _ _ _ _ _ Hlist).
  assert (List.find (fun a => String.eqb (Artifact.name a) artifact_name)
            (pre ++ a :: post) = Some a) as Hfind.
  { apply find_first. exists pre, post. repeat split.
    - now apply String.eqb_eq.
    - now apply named_false_iff. }
  rewrite Hfind. cbv zeta. rewrite Hzip. cbn [result fst]. split.
  - intros ->. reflexivity.
  - intros zipf data -> -> ->. reflexivity.
Qed.

(** X22. Whatever the service answers, the download only reads: it makes at
    most two requests, the listing and one download, leaves the local
    files alone, and never ends in the [StopIteration] or the [KeyError]
    it uses inside. *)
Theorem download_artifact_footprint :
  (exists rest,
     events o = Call listing :: rest /\
     (rest = [] \/ exists artifact_id,
                     rest = [Call (GetArtifactZip repository artifact_id)])) /\
  files (final o) = files st /\
  result o <> inl StopIteration /\
  (forall key, result o <> inl (KeyError key)).
Proof.
  destruct (github listing (world st)) as [[e|artifacts] w1] eqn:Hlist.
  - rewrite (download_listing_error e w1 Hlist). cbn [events result final files].
    split; [eauto|]. split; [reflexivity|]. split; [discriminate|].
    intros key. discriminate.
  - subst o. rewrite (download_artifact_run _ _ _ _ _ _ _ _ _ _ Hlist).
    destruct (List.find _ artifacts) as [a|].
    + cbv zeta. cbn [events result final files].
      split; [eauto 6|]. split; [reflexivity|].
      destruct (github (GetArtifactZip repository (Artifact.id a)) w1)
        as [[e|zip_bytes] w2]; cbn [fst].
      * split; [discriminate|]. intros key. discriminate.
      * destruct (ZipFile zip_bytes) as [zipf|];
          [|split; [discriminate | intros key; discriminate]].
        destruct (zipf !! filename) as [data|];
          [|split; [discriminate | intros key; discriminate]].
        destruct (decode_utf8 data);
          (split; [discriminate | intros key; discriminate]).
    + cbn [events result final files].
      split; [eauto|]. split; [reflexivity|]. split; [discriminate|].
      intros key. discriminate.
Qed.
End DownloadMore.

(** ** append_to_file, add_job_summary and set_output *)

Section FilesMore.
Context {World : Type}.
Variable os : OS.

Lemma append_to_file_refused (content filepath : string) (st : state World)
    (e : file_error) :
  open_error os filepath (files st) = Some e ->
  append_to_file os content filepath st
  = mkOutcome (inl (FileError e)) st [OpenAppend filepath].
Proof.
  intros H. unfold append_to_file.
  now rewrite (bind_err _ _ _ _ _ _ (open_append_refused os filepath st e H)).
Qed.

Lemma append_to_file_opened (content filepath : string) (st : state World) :
  open_error os filepath (files st) = None ->
  let opened :=
    <[filepath := default EmptyString (files st !! filepath)]> (files st) in
  append_to_file os content filepath st
  = match write_error os filepath content opened with
    | Some e =>
        mkOutcome (inl (FileError e)) (mkState (world st) opened)
          [OpenAppend filepath; WriteFile filepath content]
    | None =>
        mkOutcome (inr tt)
          (mkState (world st)
             (<[filepath := default EmptyString (files st !! filepath)
                            +:+ content]> (files st)))
          [OpenAppend filepath; WriteFile filepath content]
    end.
Proof.
  intros Hopen opened. unfold append_to_file.
  rewrite (bind_ok _ _ _ _ _ _ (open_append_ok os filepath st Hopen)). cbv beta.
  fold opened.
  destruct (write_error os filepath content opened) as [e|] eqn:E.
  - now rewrite (write_refused os filepath content _ _ e E).
  - rewrite (write_ok os filepath content _ _ E). subst opened.
    rewrite lookup_insert_eq, insert_insert_eq. reflexivity.
Qed.

(** X23. [append_to_file] (and [add_job_summary], which is the same call)
    can change no file but its own.  When the file cannot be opened the
    error is raised, nothing is written and nothing has changed.  When it
    opens but the write is refused the error is raised and the file holds
    what it held before, or nothing if it was missing.  When both go
    through, the file holds what it held before, or nothing if it was
    missing, followed by the content. *)
Theorem append_to_file_effect (content filepath : string) (st : state World) :
  let o := append_to_file os content filepath st in
  let before := default EmptyString (files st !! filepath) in
  add_job_summary os content filepath st = o /\
  (world (final o) = world st /\
   forall other, other <> filepath ->
     files (final o) !! other = files st !! other) /\
  (forall e, open_error os filepath (files st) = Some e ->
     o = mkOutcome (inl (FileError e)) st [OpenAppend filepath]) /\
  (open_error os filepath (files st) = None ->
   (forall e,
      write_error os filepath content (<[filepath := before]> (files st)) = Some e ->
      result o = inl (FileError e) /\
      files (final o) !! filepath = Some before) /\
   (write_error os filepath content (<[filepath := before]> (files st)) = None ->
    result o = inr tt /\
    files (final o) !! filepath = Some (before +:+ content))).
Proof.
  intros o before. subst o before.
  split; [reflexivity|]. split; [|split].
  - destruct (open_error os filepath (files st)) as [e|] eqn:Hopen.
    + rewrite (append_to_file_refused content filepath st e Hopen).
      split; [reflexivity | intros other _; reflexivity].
    + rewrite (append_to_file_opened content filepath st Hopen). cbv zeta.
      destruct (write_error os filepath content _);
        (split; [reflexivity|]); intros other Hne; cbn [final files];
        apply lookup_insert_ne; congruence.
  - intros e He. now apply append_to_file_refused.
  - intros Hopen.
    rewrite (append_to_file_opened content filepath st Hopen). cbv zeta.
    split.
    + intros e He. rewrite He. cbn [result final files].
      split; [reflexivity | apply lookup_insert_eq].
    + intros Hw. rewrite Hw. cbn [result final files].
      split; [reflexivity | apply lookup_insert_eq].
Qed.

(** X24. Where the file opens and the three writes concerned are never
    refused, appending twice leaves the same files as appending the
    concatenation once. *)
Theorem append_to_file_twice (a b filepath : string) (st : state World) :
  (forall fs, open_error os filepath fs = None) ->
  (forall text fs, In text [a; b; a +:+ b] ->
                   write_error os filepath text fs = None) ->
  final (append_to_file os b filepath (final (append_to_file os a filepath st)))
  = final (append_to_file os (a +:+ b) filepath st).
Proof.
  intros Hopen Hwrite.
  rewrite (append_to_file_opened a filepath st (Hopen _)). cbv zeta.
  rewrite (Hwrite a) by (simpl; auto). cbn [final].
  rewrite (append_to_file_opened b filepath _ (Hopen _)). cbv zeta.
  rewrite (Hwrite b) by (simpl; auto). cbn [final world files].
  rewrite (append_to_file_opened (a +:+ b) filepath st (Hopen _)). cbv zeta.
  rewrite (Hwrite (a +:+ b)) by (simpl; auto). cbn [final].
  rewrite lookup_insert_eq, insert_insert_eq.
  cbv [default from_option id]. now rewrite string_app_assoc.
Qed.

Lemma concat_lines_app (l1 l2 : list string) :
  fold_right String.append EmptyString (l1 ++ l2)
  = fold_right String.append EmptyString l1
    +:+ fold_right String.append EmptyString l2.
Proof.
  induction l1 as [|x l1 IH]; simpl; [reflexivity|].
  now rewrite IH, string_app_assoc.
Qed.

(** X25. Where the file opens and neither a line nor all the lines put
    together are ever refused, [set_output] with a path leaves the same
    files as one [append_to_file] of all its lines put together. *)
Theorem set_output_as_append (path : string) (kwargs : list (string * bool))
    (st : state World) :
  let lines := map output_line kwargs in
  (forall fs, open_error os path fs = None) ->
  (forall text fs,
     In text (fold_right String.append EmptyString lines :: lines) ->
     write_error os path text fs = None) ->
  final (set_output os (Some path) kwargs st)
  = final (append_to_file os (fold_right String.append EmptyString lines)
             path st).
Proof.
  intros lines Hopen Hwrite.
  rewrite (set_output_run os path kwargs st (Hopen _))
    by (intros text fs H; apply Hwrite; now right).
  rewrite (append_to_file_opened _ path st (Hopen _)). cbv zeta.
  rewrite Hwrite by now left. reflexivity.
Qed.

(** X26. Where the file opens and no line is ever refused, setting
    outputs in two calls leaves the same files as setting them all in one
    call. *)
Theorem set_output_app (path : string) (kwargs1 kwargs2 : list (string * bool))
    (st : state World) :
  (forall fs, open_error os path fs = None) ->
  (forall text fs, In text (map output_line (kwargs1 ++ kwargs2)) ->
                   write_error os path text fs = None) ->
  final (set_output os (Some path) kwargs2
           (final (set_output os (Some path) kwargs1 st)))
  = final (set_output os (Some path) (kwargs1 ++ kwargs2) st).
Proof.
  intros Hopen Hwrite.
  rewrite (set_output_run os path kwargs1 st (Hopen _)).
  2:{ intros text fs H. apply Hwrite. rewrite map_app. apply in_or_app. now left. }
  cbn [final].
  rewrite (set_output_run os path kwargs2 _ (Hopen _)).
  2:{ intros text fs H. apply Hwrite. rewrite map_app. apply in_or_app. now right. }
  rewrite (set_output_run os path (kwargs1 ++ kwargs2) st (Hopen _) Hwrite).
  cbn [final world files].
  rewrite lookup_insert_eq, insert_insert_eq.
  cbv [default from_option id].
  now rewrite map_app, concat_lines_app, string_app_assoc.
Qed.

(** X27. With a path and no argument, [set_output] still opens the file
    and writes nothing: when the opening goes through, a missing file is
    created empty and an existing one keeps its content; when it is
    refused, the error is raised and no file is created. *)
Theorem set_output_no_argument (path : string) (st : state World) :
  let o := set_output os (Some path) [] st in
  events o = [OpenAppend path] /\
  (open_error os path (files st) = None ->
   result o = inr tt /\
   files (final o) !! path = Some (default EmptyString (files st !! path))) /\
  (forall e, open_error os path (files st) = Some e ->
   result o = inl (FileError e) /\ final o = st).
Proof.
  intros o. subst o. split; [|split].
  - destruct (open_error os path (files st)) as [e|] eqn:E.
    + now rewrite (set_output_refused os path [] st e E).
    + now rewrite (set_output_run os path [] st E) by (intros text fs []).
  - intros E. rewrite (set_output_run os path [] st E) by (intros text fs []).
    cbn [result final files map fold_right]. rewrite string_app_nil_r.
    split; [reflexivity | apply lookup_insert_eq].
  - intros e E. rewrite (set_output_refused os path [] st e E). auto.
Qed.

(** X28. [set_output] writes line by line and stops at the first line
    that is refused: the error is raised, the lines before it are in the
    file, and the lines after it are not attempted. *)
Theorem set_output_stops_at_refused_line (path : string)
    (done rest : list (string * bool)) (bad : string * bool) (e : file_error)
    (st : state World) :
  let before := default EmptyString (files st !! path) in
  let written := fold_right String.append EmptyString (map output_line done) in
  open_error os path (files st) = None ->
  (forall text fs, In text (map output_line done) ->
                   write_error os path text fs = None) ->
  write_error os path (output_line bad)
    (<[path := before +:+ written]> (files st)) = Some e ->
  let o := set_output os (Some path) (done ++ bad :: rest) st in
  result o = inl (FileError e) /\
  files (final o) !! path = Some (before +:+ written) /\
  events o = OpenAppend path
             :: map (WriteFile path) (map output_line done)
             ++ [WriteFile path (output_line bad)].
Proof.
  intros before written Hopen Hok Hbad o. subst o. unfold set_output.
  rewrite (bind_ok _ _ _ _ _ _ (open_append_ok os path st Hopen)). cbv beta.
  rewrite (for_each_write_stops os path bad rest e done Hok _ _ before).
  - unfold after. cbn [result final events app files].
    rewrite insert_insert_eq.
    split; [reflexivity|]. split; [apply lookup_insert_eq | reflexivity].
  - apply lookup_insert_eq.
  - rewrite insert_insert_eq. exact Hbad.
Qed.
End FilesMore.

(** ** The further theorems at work on scripted sessions *)

Lemma escape_fixed_points_witness :
  escape_data "a:b,c" = "a:b,c" /\ has_char ":" "50%" = false.
Proof.
  split.
  - apply (proj2 (proj1 (escape_fixed_points "a:b,c"))). repeat split.
  - apply (proj1 (proj2 (escape_fixed_points "abc"))). reflexivity.
Defined.

Lemma is_mine_substring_witness :
  is_mine "foo" "marker" Fake.mine_marked = true.
Proof.
  apply (proj2 (is_mine_substring "foo" "marker" Fake.mine_marked)).
  split; [reflexivity|].
  exists "Hey! Hi! How are you? ", EmptyString. reflexivity.
Defined.

Lemma is_default_branch_ref_witness :
  RepositoryInfo.is_default_branch (RepositoryInfo.mk "main" "public")
    "refs/heads/main" = true.
Proof.
  apply (proj2 (proj1 (is_default_branch_ref
                         (RepositoryInfo.mk "main" "public") "main"))).
  reflexivity.
Defined.

Lemma post_comment_listing_failure_witness :
  result (post_comment (Fake.github (Script.failing Fake.refused))
            "foo" "foo/bar" 123 "hi!" "marker" Fake.start)
  = inl (ClientError (Forbidden "403")).
Proof.
  apply (post_comment_listing_failure (Fake.github (Script.failing Fake.refused))
           "foo" "foo/bar" 123 "hi!" "marker" Fake.start Fake.refused 1%nat).
  reflexivity.
Defined.

Lemma post_comment_creates_when_none_mine_witness :
  events (post_comment
            (Fake.github
               (Fake.with_comments [Fake.stranger_marked; Script.mine_plain]
                  (inr tt)))
            "foo" "foo/bar" 123 "hi!" "marker" Fake.start)
  = [Call (GetIssueComments "foo/bar" 123);
     LogInfo "Adding new comment";
     Call (PostIssueComment "foo/bar" 123 "hi!")].
Proof.
  apply (post_comment_creates_when_none_mine
           (Fake.github
              (Fake.with_comments [Fake.stranger_marked; Script.mine_plain]
                 (inr tt)))
           "foo" "foo/bar" 123 "hi!" "marker" Fake.start
           [Fake.stranger_marked; Script.mine_plain] 1%nat).
  - reflexivity.
  - repeat constructor.
Defined.

Lemma post_comment_other_write_error_witness :
  result (post_comment
            (Fake.github (Fake.with_comments Fake.thread (inl Fake.missing)))
            "foo" "foo/bar" 123 "hi!" "marker" Fake.start)
  = inl (ClientError (ApiError "404")) /\
  result (post_comment
            (Fake.github (Fake.with_comments [] (inl Fake.missing)))
            "foo" "foo/bar" 123 "hi!" "marker" Fake.start)
  = inl (ClientError (ApiError "404")).
Proof.
  split.
  - apply (proj1 (post_comment_other_write_error
                    (Fake.github (Fake.with_comments Fake.thread (inl Fake.missing)))
                    "foo" "foo/bar" 123 "hi!" "marker" Fake.start
                    Fake.thread 1%nat 2%nat "404" eq_refl)
             Fake.mine_marked); reflexivity.
  - apply (proj2 (post_comment_other_write_error
                    (Fake.github (Fake.with_comments [] (inl Fake.missing)))
                    "foo" "foo/bar" 123 "hi!" "marker" Fake.start
                    [] 1%nat 2%nat "404" eq_refl)); reflexivity.
Defined.

Lemma post_comment_footprint_witness :
  (exists detail, ClientError (Forbidden "403") = ClientError (Forbidden detail)) /\
  existsb (fun e => is_create e || is_update e)
    (events (post_comment
               (Fake.github (Fake.with_comments [] (inl Fake.refused)))
               "foo" "foo/bar" 123 "hi!" "marker" Fake.start)) = true.
Proof.
  apply (proj2 (proj2 (proj2 (post_comment_footprint
                                (Fake.github (Fake.with_comments [] (inl Fake.refused)))
                                "foo" "foo/bar" 123 "hi!" "marker" Fake.start)))).
  reflexivity.
Defined.

Lemma post_comment_empty_marker_witness :
  events (post_comment
            (Fake.github
               (Fake.with_comments [Fake.stranger_marked; Script.mine_plain]
                  (inr tt)))
            "foo" "foo/bar" 123 "hi!" EmptyString Fake.start)
  = [Call (GetIssueComments "foo/bar" 123);
     LogInfo "Update previous comment";
     Call (PatchIssueComment "foo/bar" 9 "hi!")].
Proof.
  apply (post_comment_empty_marker
           (Fake.github
              (Fake.with_comments [Fake.stranger_marked; Script.mine_plain]
                 (inr tt)))
           "foo" "foo/bar" 123 "hi!" Fake.start
           [Fake.stranger_marked] [] Script.mine_plain 1%nat).
  - reflexivity.
  - repeat constructor. discriminate.
  - reflexivity.
Defined.

Lemma pr_number_run_lookup_failure_witness :
  result (get_pr_number_from_workflow_run
            (Fake.github (Script.failing Fake.missing)) "foo/bar" 123 Fake.start)
  = inl (ClientError (ApiError "404")).
Proof.
  apply (pr_number_run_lookup_failure (Fake.github (Script.failing Fake.missing))
           "foo/bar" 123 Fake.start Fake.missing 1%nat).
  reflexivity.
Defined.

Lemma pr_number_query_failure_witness :
  events (get_pr_number_from_workflow_run
            (Fake.github (Script.with_pull_answers (inl Fake.refused) (inr [])))
            "foo/bar" 123 Fake.start)
  = [Call (GetRun "foo/bar" 123);
     Call (GetPulls "foo/bar" "someone/repo-name:other" "updated" "desc" "open")] /\
  result (get_pr_number_from_workflow_run
            (Fake.github (Script.with_pull_answers (inr []) (inl Fake.refused)))
            "foo/bar" 123 Fake.start)
  = inl (ClientError (Forbidden "403")).
Proof.
  split.
  - apply (proj1 (pr_number_query_failure
                    (Fake.github (Script.with_pull_answers (inl Fake.refused) (inr [])))
                    "foo/bar" 123 Fake.start Fake.the_run 1%nat 2%nat Fake.refused
                    eq_refl)).
    reflexivity.
  - apply (proj2 (pr_number_query_failure
                    (Fake.github (Script.with_pull_answers (inr []) (inl Fake.refused)))
                    "foo/bar" 123 Fake.start Fake.the_run 1%nat 2%nat Fake.refused
                    eq_refl) 3%nat); reflexivity.
Defined.

Lemma pr_number_footprint_witness :
  (exists ce,
     CannotDeterminePR "No open PR found for branch someone/repo-name:other"
     = ClientError ce) \/
  (exists msg,
     CannotDeterminePR "No open PR found for branch someone/repo-name:other"
     = CannotDeterminePR msg).
Proof.
  apply (proj2 (proj2 (proj2 (pr_number_footprint
                                (Fake.github (Fake.with_pulls [] []))
                                "foo/bar" 123 Fake.start)))).
  reflexivity.
Defined.

Lemma download_artifact_listing_failure_witness :
  result (download_artifact (Fake.github (Script.failing Fake.refused))
            Fake.ZipFile Fake.decode_ascii "foo/bar" "foo" 123 "foo.txt"
            Fake.start)
  = inl (ClientError (Forbidden "403")).
Proof.
  apply (download_artifact_listing_failure
           (Fake.github (Script.failing Fake.refused))
           Fake.ZipFile Fake.decode_ascii "foo/bar" "foo" 123 "foo.txt"
           Fake.start Fake.refused 1%nat).
  reflexivity.
Defined.

Lemma download_artifact_download_failure_witness :
  result (download_artifact
            (Fake.github
               (Script.with_download Script.three_artifacts (inl Fake.refused)))
            Fake.ZipFile Fake.decode_ascii "foo/bar" "foo" 123 "foo.txt"
            Fake.start)
  = inl (ClientError (Forbidden "403")).
Proof.
  apply (download_artifact_download_failure
           (Fake.github
              (Script.with_download Script.three_artifacts (inl Fake.refused)))
           Fake.ZipFile Fake.decode_ascii "foo/bar" "foo" 123 "foo.txt"
           Fake.start
           [Artifact.mk "bar" 456] [Artifact.mk "foo" 790] (Artifact.mk "foo" 789)
           1%nat 2%nat Fake.refused).
  - reflexivity.
  - repeat constructor. discriminate.
  - reflexivity.
  - reflexivity.
Defined.

Lemma download_artifact_bad_archive_witness :
  result (download_artifact
            (Fake.github (Script.with_download Script.three_artifacts (inr [])))
            Fake.ZipFile Fake.decode_ascii "foo/bar" "foo" 123 "foo.txt"
            Fake.start)
  = inl BadZipFile /\
  result (download_artifact
            (Fake.github
               (Script.with_download Script.three_artifacts (inr Script.not_text)))
            Fake.ZipFile Fake.decode_ascii "foo/bar" "foo" 123 "foo.txt"
            Fake.start)
  = inl UnicodeDecodeError.
Proof.
  split.
  - destruct (download_artifact_bad_archive
                (Fake.github
                   (Script.with_download Script.three_artifacts (inr [])))
                Fake.ZipFile Fake.decode_ascii "foo/bar" "foo" 123 "foo.txt"
                Fake.start
                [Artifact.mk "bar" 456] [Artifact.mk "foo" 790]
                (Artifact.mk "foo" 789) 1%nat 2%nat [])
      as [Hbad _];
      [reflexivity | repeat constructor; discriminate
      | reflexivity | reflexivity |].
    apply Hbad. reflexivity.
  - destruct (download_artifact_bad_archive
                (Fake.github
                   (Script.with_download Script.three_artifacts
                      (inr Script.not_text)))
                Fake.ZipFile Fake.decode_ascii "foo/bar" "foo" 123 "foo.txt"
                Fake.start
                [Artifact.mk "bar" 456] [Artifact.mk "foo" 790]
                (Artifact.mk "foo" 789) 1%nat 2%nat Script.not_text)
      as [_ Htext];
      [reflexivity | repeat constructor; discriminate
      | reflexivity | reflexivity |].
    apply (Htext {[ "foo.txt" := Script.not_text ]} Script.not_text);
      reflexivity.
Defined.

Lemma download_artifact_footprint_witness :
  result (download_artifact
            (Fake.github (Script.with_download Script.three_artifacts (inr [])))
            Fake.ZipFile Fake.decode_ascii "foo/bar" "baz" 123 "foo.txt"
            Fake.start)
  <> inl StopIteration.
Proof.
  apply (download_artifact_footprint
           (Fake.github (Script.with_download Script.three_artifacts (inr [])))
           Fake.ZipFile Fake.decode_ascii "foo/bar" "baz" 123 "foo.txt"
           Fake.start).
Defined.

Lemma append_to_file_effect_witness :
  append_to_file Script.no_such_directory "## Coverage" "missing-dir/summary.md"
    Fake.start
  = mkOutcome (inl (FileError FileNotFoundError)) Fake.start
      [OpenAppend "missing-dir/summary.md"] /\
  (result (append_to_file Fake.disk "## Coverage" "summary.md" Fake.start)
   = inr tt /\
   files (final (append_to_file Fake.disk "## Coverage" "summary.md" Fake.start))
     !! "summary.md" = Some "## Coverage").
Proof.
  split.
  - apply (append_to_file_effect Script.no_such_directory "## Coverage"
             "missing-dir/summary.md" Fake.start).
    reflexivity.
  - apply (append_to_file_effect Fake.disk "## Coverage" "summary.md" Fake.start);
      reflexivity.
Defined.

Lemma append_to_file_twice_witness :
  final (append_to_file Fake.disk "b" "summary.md"
           (final (append_to_file Fake.disk "a" "summary.md" Fake.start)))
  = final (append_to_file Fake.disk "ab" "summary.md" Fake.start).
Proof.
  apply (append_to_file_twice Fake.disk "a" "b" "summary.md" Fake.start).
  - intros fs. reflexivity.
  - intros text fs _. reflexivity.
Defined.

Lemma set_output_as_append_witness :
  final (set_output Fake.disk (Some "out") [("a", true); ("b", false)] Fake.start)
  = final (append_to_file Fake.disk
             (fold_right String.append EmptyString
                (map output_line [("a", true); ("b", false)]))
             "out" Fake.start).
Proof.
  apply (set_output_as_append Fake.disk "out" [("a", true); ("b", false)]
           Fake.start).
  - intros fs. reflexivity.
  - intros text fs _. reflexivity.
Defined.

Lemma set_output_app_witness :
  final (set_output Fake.disk (Some "out") [("b", false)]
           (final (set_output Fake.disk (Some "out") [("a", true)] Fake.start)))
  = final (set_output Fake.disk (Some "out") ([("a", true)] ++ [("b", false)])
             Fake.start).
Proof.
  apply (set_output_app Fake.disk "out" [("a", true)] [("b", false)] Fake.start).
  - intros fs. reflexivity.
  - intros text fs _. reflexivity.
Defined.

Lemma set_output_no_argument_witness :
  (result (set_output Fake.disk (Some "out") [] Fake.start) = inr tt /\
   files (final (set_output Fake.disk (Some "out") [] Fake.start)) !! "out"
   = Some EmptyString) /\
  (result (set_output Script.no_such_directory (Some "missing-dir/out") []
             Fake.start)
   = inl (FileError FileNotFoundError) /\
   final (set_output Script.no_such_directory (Some "missing-dir/out") []
            Fake.start)
   = Fake.start).
Proof.
  split.
  - apply (set_output_no_argument Fake.disk "out" Fake.start). reflexivity.
  - apply (set_output_no_argument Script.no_such_directory "missing-dir/out"
             Fake.start).
    reflexivity.
Defined.

Lemma set_output_stops_at_refused_line_witness :
  let o := set_output Script.ascii_files (Some "out")
             ([("a", true)] ++ (Script.accented_key, false) :: [("c", true)])
             Fake.start in
  result o = inl (FileError UnicodeEncodeError) /\
  files (final o) !! "out" = Some (String.append "a=true" newline) /\
  events o = [OpenAppend "out";
              WriteFile "out" (output_line ("a", true));
              WriteFile "out" (output_line (Script.accented_key, false))].
Proof.
  apply (set_output_stops_at_refused_line Script.ascii_files "out"
           [("a", true)] [("c", true)] (Script.accented_key, false)
           UnicodeEncodeError Fake.start).
  - reflexivity.
  - intros text fs [<-|[]]. reflexivity.
  - reflexivity.
Defined.

Lemma set_output_effect_witness :
  (let o := set_output Fake.disk (Some "out") [("foo", true)] Fake.start in
   result o = inr tt /\
   events o = [OpenAppend "out"; WriteFile "out" (output_line ("foo", true))] /\
   files (final o) !! "out" = Some (String.append "foo=true" newline)) /\
  set_output Script.no_such_directory (Some "missing-dir/out") [("foo", true)]
    Fake.start
  = mkOutcome (inl (FileError FileNotFoundError)) Fake.start
      [OpenAppend "missing-dir/out"].
Proof.
  split.
  - destruct (proj2 (set_output_effect Fake.disk [("foo", true)] Fake.start) "out")
      as (_ & _ & H).
    destruct H as (Hres & Hev & Hfiles);
      [reflexivity | intros text fs _; reflexivity |].
    split; [exact Hres|]. split; [exact Hev|].
    rewrite Hfiles. apply lookup_insert_eq.
  - apply (proj2 (set_output_effect Script.no_such_directory [("foo", true)]
                    Fake.start) "missing-dir/out").
    reflexivity.
Defined.

(** C5, as the spec words it, does not hold: an entry of the requested
    name that is found in the archive of the first matching artifact is
    not always returned.  With everything found, an entry that is not
    valid text ends in [UnicodeDecodeError]: neither [NoArtifact] nor a
    content. *)
Lemma present_entry_not_always_returned :
  ~ (forall (World : Type) (github : GitHub World)
       (ZipFile : bytes -> option archive) (decode_utf8 : bytes -> option string)
       (repository artifact_name : string) (run_id : Z) (filename : string)
       (st : state World) (pre post : list Artifact.t) (a : Artifact.t)
       (w1 w2 : World) (zip_bytes : bytes) (zipf : archive) (data : bytes),
       github (GetRunArtifacts repository run_id) (world st)
         = (inr (pre ++ a :: post), w1) ->
       Forall (fun a' => Artifact.name a' <> artifact_name) pre ->
       Artifact.name a = artifact_name ->
       github (GetArtifactZip repository (Artifact.id a)) w1 = (inr zip_bytes, w2) ->
       ZipFile zip_bytes = Some zipf ->
       zipf !! filename = Some data ->
       exists content,
         result (download_artifact github ZipFile decode_utf8
                   repository artifact_name run_id filename st)
         = inr content).
Proof.
  intros claim.
  destruct (claim nat
              (Fake.github
                 (Script.with_download Script.three_artifacts
                    (inr Script.not_text)))
              Fake.ZipFile Fake.decode_ascii "foo/bar" "foo" 123 "foo.txt"
              Fake.start
              [Artifact.mk "bar" 456] [Artifact.mk "foo" 790]
              (Artifact.mk "foo" 789) 1%nat 2%nat Script.not_text
              {[ "foo.txt" := Script.not_text ]} Script.not_text)
    as [content H].
  - reflexivity.
  - repeat constructor. discriminate.
  - reflexivity.
  - reflexivity.
  - reflexivity.
  - reflexivity.
  - vm_compute in H. discriminate H.
Qed.

(** The same on a failed download: the first matching artifact is found,
    and the error of its download is what comes out. *)
Example test_download_artifact__download_refused :
  result (download_artifact
            (Fake.github
               (Script.with_download Script.three_artifacts (inl Fake.refused)))
            Fake.ZipFile Fake.decode_ascii "foo/bar" "foo" 123 "foo.txt"
            Fake.start)
  = inl (ClientError (Forbidden "403")).
Proof. reflexivity. Qed.
